(** * makofind: a shallow embedding of [src/makofind.c]

    makofind walks one or more directory trees with nftw(3C) and prints one
    manifest line per regular file.  This development embeds the program's
    two functions, [main] and [nftw_cb] (with the helper [nftw_warn]), as
    state-passing functions over an explicit process state, together with
    the parts of the C library they call, and proves the properties of the
    program's specification against them. *)

From Stdlib Require Import ZArith List String Ascii Bool Lia.
Import ListNotations.

Local Open Scope string_scope.
Local Open Scope Z_scope.

(** ** Strings *)

Module Str.

Definition TAB : string := String "009"%char "".
Definition NL : string := String "010"%char "".

Fixpoint repeat_char (c : ascii) (n : nat) : string :=
  match n with
  | O => ""
  | S n' => String c (repeat_char c n')
  end.

End Str.

(** ** The formatted-output subset of the C library used by the program

    The program formats with [printf] and the [warn] family.  The
    conversions it uses are [%s], [%d], [%ld] and [%09ld]; [vformat]
    interprets a format string with these conversions (flag [0], a decimal
    field width, the length modifier [l], and the conversions [d] and [s]). *)

Module Fmt.

Inductive arg : Type :=
| AStr (s : string)
| AInt (n : Z).

Definition digit_char (d : Z) : ascii :=
  Ascii.ascii_of_nat (48 + Z.to_nat d).

(** Decimal digits of a non-negative number, most significant first.  The
    fuel bounds the number of digits produced. *)
Fixpoint digits (fuel : nat) (n : Z) : string :=
  match fuel with
  | O => ""
  | S f =>
      (if n / 10 =? 0 then "" else digits f (n / 10))
        ++ String (digit_char (n mod 10)) ""
  end.

(** A number below [2^k] has at most [k] decimal digits, so the binary
    length of [n] is enough fuel. *)
Definition dec_abs (n : Z) : string :=
  digits (S (Z.to_nat (Z.log2 n))) n.

(** An integer conversion with optional [0] flag and minimum field
    [width]: the sign comes first, zero padding goes between the sign and
    the digits, blank padding goes before the sign. *)
Definition render_int (zero : bool) (width : nat) (n : Z) : string :=
  let sign := if n <? 0 then "-" else "" in
  let ds := dec_abs (Z.abs n) in
  let pad := (width - String.length sign - String.length ds)%nat in
  if zero then sign ++ Str.repeat_char "0" pad ++ ds
  else Str.repeat_char " " pad ++ sign ++ ds.

Definition render_str (width : nat) (s : string) : string :=
  Str.repeat_char " " (width - String.length s) ++ s.

Definition is_digit (c : ascii) : bool :=
  let n := nat_of_ascii c in (48 <=? n)%nat && (n <=? 57)%nat.

Definition digit_val (c : ascii) : nat := (nat_of_ascii c - 48)%nat.

(** Scanner state: in literal text, or inside a conversion specification
    whose flag and width have been read so far. *)
Inductive scan : Type :=
| Plain
| Conv (zero : bool) (width : nat) (fresh : bool).

Fixpoint vformat (sc : scan) (fmt : string) (args : list arg) : string :=
  match fmt with
  | EmptyString => ""
  | String c rest =>
      match sc with
      | Plain =>
          if Ascii.eqb c "%" then vformat (Conv false 0 true) rest args
          else String c (vformat Plain rest args)
      | Conv zero width fresh =>
          if Ascii.eqb c "%" && fresh then
            String c (vformat Plain rest args)
          else if Ascii.eqb c "0" && fresh then
            vformat (Conv true 0 false) rest args
          else if is_digit c then
            vformat (Conv zero (10 * width + digit_val c) false) rest args
          else if Ascii.eqb c "l" then
            vformat (Conv zero width false) rest args
          else if Ascii.eqb c "d" then
            match args with
            | AInt n :: args' =>
                render_int zero width n ++ vformat Plain rest args'
            | _ => vformat Plain rest (tl args)
            end
          else if Ascii.eqb c "s" then
            match args with
            | AStr s :: args' =>
                render_str width s ++ vformat Plain rest args'
            | _ => vformat Plain rest (tl args)
            end
          else vformat Plain rest args
      end
  end.

Definition format (fmt : string) (args : list arg) : string :=
  vformat Plain fmt args.

End Fmt.

(** ** System headers

    [struct stat] and [struct timespec] of <sys/stat.h>, with the fields the
    program reads.  [off_t], [time_t], [long], [blkcnt_t] and [dev_t] values
    are integers. *)

Record timespec : Type := { tv_sec : Z; tv_nsec : Z }.

Record stat : Type := {
  st_dev : Z;
  st_size : Z;
  st_mtim : timespec;
  st_blocks : Z
}.

(** The constants of <ftw.h> are not fixed by the program: it is compiled
    against the platform's header.  They are taken as parameters.  The
    labels of one C [switch] are pairwise distinct, and a flag is a
    non-zero bit mask. *)
Class ftw_h : Type := {
  FTW_F : Z;
  FTW_D : Z;
  FTW_DNR : Z;
  FTW_NS : Z;
  FTW_SL : Z;
  FTW_SLN : Z;
  FTW_PHYS : Z;
  FTW_MOUNT : Z;
  ftw_labels_distinct : NoDup [FTW_F; FTW_D; FTW_SL; FTW_DNR; FTW_NS];
  FTW_PHYS_nonzero : FTW_PHYS <> 0;
  FTW_MOUNT_nonzero : FTW_MOUNT <> 0
}.

(** ** Process state

    What the program can change: the two output streams and its one
    global, [error].  Standard output is the list of records written so
    far; [printf_calls] counts the calls made on it.  Standard error is the
    list of diagnostics, each tagged with the routine that wrote it (the
    program-name prefix and the [strerror] suffix that <err.h> adds are left
    out). *)

Inductive diag : Type :=
| Fprintf (text : string)
| Warnx (msg : string)
| Warn (msg : string).

Record world : Type := mkWorld {
  stdout : list string;
  printf_calls : nat;
  stderr : list diag;
  error : Z
}.

Definition set_error (v : Z) (w : world) : world :=
  mkWorld (stdout w) (printf_calls w) (stderr w) v.

Definition put_stderr (d : diag) (w : world) : world :=
  mkWorld (stdout w) (printf_calls w) (stderr w ++ [d])%list (error w).

(** [static int error;] starts at zero and nothing has been written. *)
Definition world0 : world := mkWorld [] 0 [] 0.

(** ** A directory tree, as the walker sees it *)

(** Modelled from the spec: the file system is outside the program; this
    is the specification's directory entry with its object kind.
    [Reg] is a regular file, [Dir] a directory with a flag telling whether
    it can be read and its entries, [Lnk] a symbolic link with what it
    resolves to (if anything), [NoStat] an entry that cannot be stat'ed, and
    [Odd st code] an object for which the platform's walker hands the visitor
    the type code [code]. *)
Unset Elimination Schemes.
Inductive fsnode : Type :=
| Reg (st : stat)
| Dir (st : stat) (readable : bool) (ents : list (string * fsnode))
| Lnk (st : stat) (target : option fsnode)
| NoStat
| Odd (st : stat) (code : Z).
Set Elimination Schemes.

(** The buffer handed to the visitor when stat failed has no defined
    contents. *)
Definition undef_stat : stat :=
  {| st_dev := 0; st_size := 0;
     st_mtim := {| tv_sec := 0; tv_nsec := 0 |}; st_blocks := 0 |}.

Definition visitor : Type := string -> stat -> Z -> world -> Z * world.

Section Walker.

Context {hdr : ftw_h}.

Variable fn : visitor.
Variable descriptors : Z.
Variables phys mount : bool.
Variable dev : Z.

(** Mount-boundary predicate: the root's device identifier against the
    candidate entry's. *)
Definition crosses (st : stat) : bool :=
  mount && negb (st_dev st =? dev).

(** Modelled from the spec: nftw(3C) belongs to the C library and is not
    part of the repository.  This is the Walker of the specification:
    depth-first, a directory visited before its entries, entries in the
    directory's order; physical ([phys]: a symbolic link is reported as such
    and not followed); mount-confined ([mount]: an entry on another device
    than the root is left out, neither visited nor descended into); an
    unreadable directory and a stat failure are reported to the visitor;
    the walk stops with the visitor's value at the first non-zero one; a
    directory nested deeper than the descriptor bound makes the walk fail
    with -1. *)
Fixpoint walk (level : nat) (path : string) (n : fsnode) (w : world)
  {struct n} : Z * world :=
  match n with
  | NoStat => fn path undef_stat FTW_NS w
  | Reg st => if crosses st then (0, w) else fn path st FTW_F w
  | Odd st code => if crosses st then (0, w) else fn path st code w
  | Lnk st target =>
      if phys then
        if crosses st then (0, w) else fn path st FTW_SL w
      else
        match target with
        | Some t => walk level path t w
        | None => if crosses st then (0, w) else fn path st FTW_SLN w
        end
  | Dir st readable ents =>
      if crosses st then (0, w)
      else if negb readable then fn path st FTW_DNR w
      else if descriptors <=? Z.of_nat level then (-1, w)
      else
        let (r, w1) := fn path st FTW_D w in
        if r =? 0 then
          (fix walk_list (es : list (string * fsnode)) (w : world)
             : Z * world :=
             match es with
             | [] => (0, w)
             | (name, c) :: es' =>
                 let (r, w') := walk (S level) (path ++ "/" ++ name) c w in
                 if r =? 0 then walk_list es' w' else (r, w')
             end) ents w1
        else (r, w1)
  end.

(** Modelled from the spec: the Walker on the entries of one directory,
    in order, until one stops the walk. *)
Fixpoint walk_list (level : nat) (path : string)
  (es : list (string * fsnode)) (w : world) : Z * world :=
  match es with
  | [] => (0, w)
  | (name, c) :: es' =>
      let (r, w') := walk (S level) (path ++ "/" ++ name) c w in
      if r =? 0 then walk_list level path es' w' else (r, w')
  end.

End Walker.

(** Modelled from the spec: the device identifier of the root,
    established when the root is first stat'ed ([lstat] under [phys]);
    [None] when that fails. *)
Fixpoint root_dev (phys : bool) (n : fsnode) : option Z :=
  match n with
  | Reg st | Dir st _ _ | Odd st _ => Some (st_dev st)
  | NoStat => None
  | Lnk st target =>
      if phys then Some (st_dev st)
      else match target with
           | Some t => root_dev phys t
           | None => Some (st_dev st)
           end
  end.

(** What [lstat] gives for a node. *)
Definition lstat_of (n : fsnode) : option stat :=
  match n with
  | Reg st | Dir st _ _ | Lnk st _ | Odd st _ => Some st
  | NoStat => None
  end.

Definition has_flag (flags f : Z) : bool := negb (Z.land flags f =? 0).

Section Program.

Context {hdr : ftw_h}.

(** The file system: what each root path names, if anything. *)
Variable fs : string -> option fsnode.

(** Which calls of [printf] fail, by their number: the output channel is
    outside the program. *)
Variable stdout_fails : nat -> bool.

(** *** <stdio.h> and <err.h>

    C library routines, not part of the repository.  [printf] returns the
    number of characters written, or a negative value when the write
    fails, in which case nothing reaches the manifest. *)

Definition printf (fmt : string) (args : list Fmt.arg) (w : world)
  : Z * world :=
  let s := Fmt.format fmt args in
  let k := printf_calls w in
  if stdout_fails k then
    (-1, mkWorld (stdout w) (S k) (stderr w) (error w))
  else
    (Z.of_nat (String.length s),
     mkWorld (stdout w ++ [s])%list (S k) (stderr w) (error w)).

Definition fprintf_stderr (fmt : string) (args : list Fmt.arg) (w : world)
  : world :=
  put_stderr (Fprintf (Fmt.format fmt args)) w.

Definition vwarnx (fmt : string) (args : list Fmt.arg) (w : world) : world :=
  put_stderr (Warnx (Fmt.format fmt args)) w.

Definition warn (fmt : string) (args : list Fmt.arg) (w : world) : world :=
  put_stderr (Warn (Fmt.format fmt args)) w.

(** *** <ftw.h>: nftw *)

(** Modelled from the spec: nftw(3C) belongs to the C library.  It fails
    with -1 when the root path names nothing or cannot be stat'ed;
    otherwise it decodes the flags, records the root's device and walks
    the tree from level 0. *)
Definition nftw (path : string) (fn : visitor) (descriptors : Z) (flags : Z)
  (w : world) : Z * world :=
  let phys := has_flag flags FTW_PHYS in
  let mount := has_flag flags FTW_MOUNT in
  match fs path with
  | None => (-1, w)
  | Some n =>
      match root_dev phys n with
      | None => (-1, w)
      | Some dev => walk fn descriptors phys mount dev 0 path n w
      end
  end.

(** *** makofind.c *)

Definition MAX_DESCRIPTORS : Z := 10.

Definition nftw_warn (fmt : string) (args : list Fmt.arg) (w : world)
  : world :=
  set_error 1 (vwarnx fmt args w).

(** The manifest format of [nftw_cb] and the physical size it prints. *)
Definition manifest_fmt : string :=
  "%s" ++ Str.TAB ++ "%ld" ++ Str.TAB ++ "%ld.%09ld0" ++ Str.TAB ++ "%ld"
       ++ Str.NL.

Definition logical (st : stat) : Z :=
  Z.quot (st_blocks st) 2 + Z.rem (st_blocks st) 2.

(** The arguments of the [printf] call, in order. *)
Definition manifest_args (path : string) (st : stat) : list Fmt.arg :=
  [Fmt.AStr path; Fmt.AInt (st_size st);
   Fmt.AInt (tv_sec (st_mtim st)); Fmt.AInt (tv_nsec (st_mtim st));
   Fmt.AInt (logical st)].

(** The [struct FTW *] argument is not used by the function and is left
    out. *)
Definition nftw_cb (path : string) (st : stat) (objtype : Z) (w : world)
  : Z * world :=
  if objtype =? FTW_F then
    let (n, w1) := printf manifest_fmt (manifest_args path st) w in
    if n <? 0 then
      (1, nftw_warn "Failed to print information for: %s" [Fmt.AStr path] w1)
    else (0, w1)
  else if (objtype =? FTW_D) || (objtype =? FTW_SL) then (0, w)
  else if objtype =? FTW_DNR then
    (0, nftw_warn "Unable to read directory: %s" [Fmt.AStr path] w)
  else if objtype =? FTW_NS then
    (0, nftw_warn "stat failed at %s" [Fmt.AStr path] w)
  else
    (1, nftw_warn "%s: unknown type (%d)" [Fmt.AStr path; Fmt.AInt objtype] w).

(** The [for] loop of [main] over [argv[1..argc-1]]. *)
Fixpoint main_loop (flags : Z) (roots : list string) (w : world) : world :=
  match roots with
  | [] => w
  | root :: rest =>
      let (ret, w1) := nftw root nftw_cb MAX_DESCRIPTORS flags w in
      let w2 :=
        if ret =? -1 then
          set_error 1
            (warn "An error occured traversing %s" [Fmt.AStr root] w1)
        else w1 in
      if ret =? 1 then w2 else main_loop flags rest w2
  end.

(** [main] returns the exit status and the final state; [argv] is the
    whole argument vector, program name first ([argv[0]] is a null
    pointer when the vector is empty). *)
Definition main (argv : list string) (w : world) : Z * world :=
  if Z.of_nat (List.length argv) <? 2 then
    (1, fprintf_stderr ("usage: %s dir1 dir2 ... dirN" ++ Str.NL)
          [Fmt.AStr (nth 0 argv "(null)")] w)
  else
    let flags := Z.lor FTW_PHYS FTW_MOUNT in
    let w' := main_loop flags (tl argv) w in
    (error w', w').

End Program.

(** ** The manifest layout, in the specification's words

    One line per regular file: path, logical size in bytes, modification
    time as seconds, a dot, the nanoseconds as exactly nine digits and one
    more zero, and the physical size in kilobytes; tab-separated and
    newline-terminated. *)

Module Manifest.

(** The [k] low decimal digits of [n], most significant first. *)
Fixpoint fixed_digits (k : nat) (n : Z) : string :=
  match k with
  | O => ""
  | S k' => fixed_digits k' (n / 10) ++ String (Fmt.digit_char (n mod 10)) ""
  end.

Definition decimal (n : Z) : string :=
  (if n <? 0 then "-" else "") ++ Fmt.dec_abs (Z.abs n).

Definition timestamp (ts : timespec) : string :=
  decimal (tv_sec ts) ++ "." ++ fixed_digits 9 (tv_nsec ts) ++ "0".

(** Half the number of 512-byte blocks, rounded up. *)
Definition physical_kb (blocks : Z) : Z :=
  if Z.even blocks then blocks / 2 else blocks / 2 + 1.

Definition line (path : string) (size : Z) (mtime : timespec) (kb : Z)
  : string :=
  path ++ Str.TAB ++ decimal size ++ Str.TAB ++ timestamp mtime ++ Str.TAB
       ++ decimal kb ++ Str.NL.

Definition record_of (path : string) (st : stat) : string :=
  line path (st_size st) (st_mtim st) (physical_kb (st_blocks st)).

End Manifest.

(** ** Physical reachability

    [reach dev path n q st]: the file [q] with stat [st] lies under the
    node [n] named [path], on a chain of readable directories that are all
    on device [dev], as is the file itself.  No chain passes through a
    symbolic link.  A file is a regular file, or an object the walker
    classifies as a file. *)
Inductive reach {hdr : ftw_h} (dev : Z)
  : string -> fsnode -> string -> stat -> Prop :=
| reach_file (path : string) (st : stat) :
    st_dev st = dev -> reach dev path (Reg st) path st
| reach_as_file (path : string) (st : stat) :
    st_dev st = dev -> reach dev path (Odd st FTW_F) path st
| reach_entry (path : string) (st : stat) (ents : list (string * fsnode))
    (name : string) (c : fsnode) (q : string) (s : stat) :
    st_dev st = dev -> In (name, c) ents ->
    reach dev (path ++ "/" ++ name) c q s ->
    reach dev path (Dir st true ents) q s.

(** ** A clean run

    Every root's walk returns 0 (no abort and no failure of the walk) and
    writes no diagnostic (no per-entry error). *)
Fixpoint roots_clean {hdr : ftw_h} (fs : string -> option fsnode)
  (stdout_fails : nat -> bool) (flags : Z) (roots : list string) (w : world)
  : Prop :=
  match roots with
  | [] => True
  | root :: rest =>
      let r := nftw fs root (nftw_cb stdout_fails) MAX_DESCRIPTORS flags w in
      fst r = 0 /\ stderr (snd r) = stderr w
      /\ roots_clean fs stdout_fails flags rest (snd r)
  end.

(** ** Diagnostics and the flag

    [reported w r w']: going from [w] to [w'] with return value [r], either
    nothing was written to standard error, the flag is untouched and [r] is
    not the visitor's abort value, or something was written and the flag
    is 1. *)
Definition reported (w : world) (r : Z) (w' : world) : Prop :=
  (r = 0 \/ r = 1 \/ r = -1) /\
  exists ds : list diag,
    stderr w' = (stderr w ++ ds)%list /\
    ((ds = [] /\ error w' = error w /\ r <> 1) \/
     (ds <> [] /\ error w' = 1)).

(** ** Concrete inputs *)

Module Sample.

(** One assignment of the <ftw.h> constants. *)
#[local] Instance hdr : ftw_h.
Proof.
  refine {| FTW_F := 0; FTW_D := 1; FTW_DNR := 2; FTW_NS := 3; FTW_SL := 4;
            FTW_SLN := 7; FTW_PHYS := 1; FTW_MOUNT := 2 |}.
  - repeat constructor; simpl; intuition discriminate.
  - discriminate.
  - discriminate.
Defined.

Definition mtime : timespec :=
  {| tv_sec := 1700000000; tv_nsec := 123456789 |}.

(** A file of 1 MiB occupying 2049 blocks, on device 1. *)
Definition st_obj : stat :=
  {| st_dev := 1; st_size := 1048576; st_mtim := mtime; st_blocks := 2049 |}.

(** The same file on device 2. *)
Definition st_far : stat :=
  {| st_dev := 2; st_size := 1048576; st_mtim := mtime; st_blocks := 2049 |}.

Definition st_dir : stat :=
  {| st_dev := 1; st_size := 4; st_mtim := mtime; st_blocks := 1 |}.

Definition st_mnt : stat :=
  {| st_dev := 2; st_size := 4; st_mtim := mtime; st_blocks := 1 |}.

(** [/r1] holds an object of unknown type before a regular file; [/r2]
    holds a regular file; [/a] holds a file, a symbolic link to a
    directory with a file, a mount point with a file, an unreadable
    directory and an entry that cannot be stat'ed; [/two] holds two regular
    files.  No other path exists. *)
Definition fs (path : string) : option fsnode :=
  if (path =? "/r1")%string then
    Some (Dir st_dir true [("x", Odd st_obj 99); ("y", Reg st_obj)])
  else if (path =? "/r2")%string then
    Some (Dir st_dir true [("f", Reg st_obj)])
  else if (path =? "/a")%string then
    Some (Dir st_dir true
            [("f", Reg st_obj);
             ("l", Lnk st_dir (Some (Dir st_dir true [("t", Reg st_obj)])));
             ("b", Dir st_mnt true [("f", Reg st_far)]);
             ("u", Dir st_dir false [("h", Reg st_obj)]);
             ("n", NoStat)])
  else if (path =? "/two")%string then
    Some (Dir st_dir true [("f", Reg st_obj); ("g", Reg st_obj)])
  else None.

Definition never_fails (k : nat) : bool := false.
Definition always_fails (k : nat) : bool := true.
Definition fails_first (k : nat) : bool := (k =? 0)%nat.

End Sample.

(** ** The files of a tree

    The files a physical, mount-confined walk from a node on device [dev]
    comes to, with their paths, in the order of the walk: the node itself
    when it is a file, and the files under a readable directory, entry by
    entry.  Nothing lies under a symbolic link, an unreadable directory or
    an entry on another device. *)
Fixpoint files_of {hdr : ftw_h} (dev : Z) (path : string) (n : fsnode)
  {struct n} : list (string * stat) :=
  match n with
  | Reg st => if st_dev st =? dev then [(path, st)] else []
  | Odd st code =>
      if (st_dev st =? dev) && (code =? FTW_F) then [(path, st)] else []
  | Lnk _ _ => []
  | NoStat => []
  | Dir st readable ents =>
      if (st_dev st =? dev) && readable then
        (fix files_list (es : list (string * fsnode))
           : list (string * stat) :=
           match es with
           | [] => []
           | (name, c) :: es' =>
               (files_of dev (path ++ "/" ++ name) c ++ files_list es')%list
           end) ents
      else []
  end.

Fixpoint files_of_list {hdr : ftw_h} (dev : Z) (path : string)
  (es : list (string * fsnode)) : list (string * stat) :=
  match es with
  | [] => []
  | (name, c) :: es' =>
      (files_of dev (path ++ "/" ++ name) c ++ files_of_list dev path es')%list
  end.

(** The records of the files of one root, in the order of the walk. *)
Definition manifest_of_root {hdr : ftw_h} (fs : string -> option fsnode)
  (root : string) : list string :=
  match fs root with
  | None => []
  | Some n =>
      match root_dev true n with
      | None => []
      | Some dev =>
          map (fun f => Fmt.format manifest_fmt (manifest_args (fst f) (snd f)))
              (files_of dev root n)
      end
  end.

(** ** Field separators

    [Sep.free s]: the string holds neither a tab nor a newline. *)

Module Sep.

Definition is_sep (c : ascii) : bool :=
  Ascii.eqb c "009" || Ascii.eqb c "010".

Fixpoint free (s : string) : bool :=
  match s with
  | EmptyString => true
  | String c rest => negb (is_sep c) && free rest
  end.

End Sep.

(** ** Reading a decimal field

    [Field.value s]: the number a field of decimal digits, with an
    optional leading minus sign, stands for. *)

Module Field.

Definition digit_of (c : ascii) : Z := Z.of_nat (nat_of_ascii c) - 48.

Fixpoint digits_value (s : string) (acc : Z) : Z :=
  match s with
  | EmptyString => acc
  | String c rest => digits_value rest (10 * acc + digit_of c)
  end.

Definition value (s : string) : Z :=
  match s with
  | EmptyString => 0
  | String c rest =>
      if Ascii.eqb c "-" then - digits_value rest 0 else digits_value s 0
  end.

End Field.

(** ** Runs without trouble, read off the trees

    [clean_tree]: among the entries a physical, mount-confined walk of the
    tree visits there is no unreadable directory and no entry whose stat
    fails (the per-entry errors), no object of a type other than file,
    directory or symbolic link (the visitor's abort) and no directory
    nested deeper than the descriptor bound (the failure of the walk).
    Entries on another device than the root are not visited, nor is
    anything behind a symbolic link. *)
Fixpoint clean_tree {hdr : ftw_h} (descriptors : Z) (dev : Z) (level : nat)
  (n : fsnode) {struct n} : bool :=
  match n with
  | Reg _ => true
  | Lnk _ _ => true
  | NoStat => false
  | Odd st code =>
      negb (st_dev st =? dev)
      || ((code =? FTW_F) || (code =? FTW_D) || (code =? FTW_SL))
  | Dir st readable ents =>
      negb (st_dev st =? dev)
      || (readable && (Z.of_nat level <? descriptors)
          && (fix clean_all (es : list (string * fsnode)) : bool :=
                match es with
                | [] => true
                | (_, c) :: es' =>
                    clean_tree descriptors dev (S level) c && clean_all es'
                end) ents)
  end.

Fixpoint clean_list {hdr : ftw_h} (descriptors : Z) (dev : Z) (level : nat)
  (es : list (string * fsnode)) : bool :=
  match es with
  | [] => true
  | (_, c) :: es' =>
      clean_tree descriptors dev (S level) c
      && clean_list descriptors dev level es'
  end.

(** The root exists, can be stat'ed, and its tree is clean. *)
Definition clean_root {hdr : ftw_h} (fs : string -> option fsnode)
  (root : string) : bool :=
  match fs root with
  | None => false
  | Some n =>
      match root_dev true n with
      | None => false
      | Some dev => clean_tree MAX_DESCRIPTORS dev 0 n
      end
  end.

(** None of the [count] calls of [printf] numbered from [from] fails. *)
Definition writes_ok (stdout_fails : nat -> bool) (from count : nat) : bool :=
  forallb (fun k => negb (stdout_fails k)) (seq from count).

(** No per-entry error, no abort and no failure of a walk on any root:
    every root is clean, and every record of every file of the roots can
    be written. *)
Definition run_clean {hdr : ftw_h} (fs : string -> option fsnode)
  (stdout_fails : nat -> bool) (roots : list string) (w : world) : bool :=
  forallb (clean_root fs) roots
  && writes_ok stdout_fails (printf_calls w)
       (List.length (flat_map (manifest_of_root fs) roots)).

(** ** Aborted batches

    [visitor_aborts]: one of the walks of the loop over [roots], started in
    [w], returns the visitor's abort value 1. *)
Fixpoint visitor_aborts {hdr : ftw_h} (fs : string -> option fsnode)
  (stdout_fails : nat -> bool) (flags : Z) (roots : list string) (w : world)
  : bool :=
  match roots with
  | [] => false
  | root :: rest =>
      if fst (nftw fs root (nftw_cb stdout_fails) MAX_DESCRIPTORS flags w)
         =? 1
      then true
      else visitor_aborts fs stdout_fails flags rest
             (main_loop fs stdout_fails flags [root] w)
  end.

(** ** Facts about strings *)

Module StrFacts.

Lemma append_assoc (a b c : string) : (a ++ b) ++ c = a ++ (b ++ c).
Proof. induction a as [|x a IH]; simpl; [reflexivity | now rewrite IH]. Qed.

Lemma append_nil_r (a : string) : a ++ "" = a.
Proof. induction a as [|x a IH]; simpl; [reflexivity | now rewrite IH]. Qed.

Lemma length_append (a b : string) :
  String.length (a ++ b) = (String.length a + String.length b)%nat.
Proof. induction a as [|x a IH]; simpl; [reflexivity | now rewrite IH]. Qed.

Lemma length_repeat_char c n : String.length (Str.repeat_char c n) = n.
Proof. induction n as [|n IH]; simpl; [reflexivity | now rewrite IH]. Qed.

Lemma repeat_char_snoc c n :
  Str.repeat_char c (S n) = Str.repeat_char c n ++ String c "".
Proof. induction n as [|n IH]; [reflexivity|]. simpl in *. now rewrite <- IH. Qed.

End StrFacts.

(** ** Facts about formatting *)

Module FmtFacts.

Lemma fixed_digits_zero k :
  Manifest.fixed_digits k 0 = Str.repeat_char "0" k.
Proof.
  induction k as [|k IH]; [reflexivity|].
  rewrite StrFacts.repeat_char_snoc. cbn [Manifest.fixed_digits].
  change (0 / 10) with 0. now rewrite IH.
Qed.

(** Zero padding the digits of a number below [10^k] to width [k] gives
    its fixed-width rendering. *)
Lemma digits_pad_fixed (k : nat) :
  forall (fuel : nat) (n : Z),
    (1 <= k)%nat -> (1 <= fuel)%nat -> 0 <= n < 10 ^ Z.of_nat k ->
    n < 2 ^ Z.of_nat fuel ->
    Str.repeat_char "0" (k - String.length (Fmt.digits fuel n))
      ++ Fmt.digits fuel n
    = Manifest.fixed_digits k n.
Proof.
  induction k as [|k IH]; intros fuel n Hk Hf Hn Hb; [lia|].
  destruct fuel as [|f]; [lia|].
  cbn [Fmt.digits Manifest.fixed_digits].
  destruct (n / 10 =? 0) eqn:E.
  - apply Z.eqb_eq in E. rewrite E, fixed_digits_zero. simpl.
    now rewrite Nat.sub_0_r.
  - apply Z.eqb_neq in E.
    assert (Hq : 0 < n / 10) by (pose proof (Z.div_pos n 10); lia).
    assert (Hn10 : 10 <= n).
    { destruct (Z_lt_le_dec n 10) as [Hlt|]; [|assumption].
      rewrite Z.div_small in E; lia. }
    assert (Hk1 : (1 <= k)%nat).
    { destruct k; [|lia]. simpl in Hn. lia. }
    assert (Hf1 : (1 <= f)%nat).
    { destruct f; [|lia]. simpl in Hb. lia. }
    rewrite StrFacts.length_append. simpl String.length.
    replace (S k - (String.length (Fmt.digits f (n / 10)) + 1))%nat
      with (k - String.length (Fmt.digits f (n / 10)))%nat by lia.
    rewrite <- StrFacts.append_assoc. f_equal.
    apply IH; try assumption.
    + split; [lia|].
      apply Z.div_lt_upper_bound; [lia|].
      replace (Z.of_nat (S k)) with (Z.of_nat k + 1) in Hn by lia.
      rewrite Z.pow_add_r in Hn; lia.
    + apply Z.div_lt_upper_bound; [lia|].
      replace (Z.of_nat (S f)) with (Z.of_nat f + 1) in Hb by lia.
      rewrite Z.pow_add_r in Hb; lia.
Qed.

Lemma log2_fuel n : 0 <= n -> n < 2 ^ Z.of_nat (S (Z.to_nat (Z.log2 n))).
Proof.
  intros Hn. destruct (Z.eq_dec n 0) as [->|Hnz]; [reflexivity|].
  pose proof (Z.log2_nonneg n). pose proof (Z.log2_spec n ltac:(lia)) as [_ H1].
  replace (Z.of_nat (S (Z.to_nat (Z.log2 n)))) with (Z.succ (Z.log2 n)) by lia.
  exact H1.
Qed.

Lemma render_zero_padded (k : nat) (n : Z) :
  (1 <= k)%nat -> 0 <= n < 10 ^ Z.of_nat k ->
  Fmt.render_int true k n = Manifest.fixed_digits k n.
Proof.
  intros Hk Hn. unfold Fmt.render_int.
  replace (n <? 0) with false by (symmetry; apply Z.ltb_ge; lia).
  rewrite Z.abs_eq by lia. simpl String.length. rewrite Nat.sub_0_r.
  cbn [append]. unfold Fmt.dec_abs.
  apply digits_pad_fixed; try lia. apply log2_fuel; lia.
Qed.

Lemma render_plain (n : Z) : Fmt.render_int false 0 n = Manifest.decimal n.
Proof. reflexivity. Qed.

Lemma length_fixed_digits k n : String.length (Manifest.fixed_digits k n) = k.
Proof.
  revert n; induction k as [|k IH]; intros n; [reflexivity|].
  cbn [Manifest.fixed_digits]. rewrite StrFacts.length_append, IH. simpl. lia.
Qed.

End FmtFacts.

Section FormatFacts.

Context {hdr : ftw_h}.

Lemma render_str_0 (s : string) : Fmt.render_str 0 s = s.
Proof. reflexivity. Qed.

Lemma format_manifest_fields (path : string) (size sec nsec kb : Z) :
  0 <= nsec < 1000000000 ->
  Fmt.format manifest_fmt
    [Fmt.AStr path; Fmt.AInt size; Fmt.AInt sec; Fmt.AInt nsec; Fmt.AInt kb]
  = Manifest.line path size {| tv_sec := sec; tv_nsec := nsec |} kb.
Proof.
  intros Hns.
  unfold Fmt.format.
  let f := eval vm_compute in manifest_fmt in change manifest_fmt with f.
  match goal with
  | |- ?l = _ =>
      let l' := eval lazy -[Fmt.render_int Fmt.render_str append] in l in
      change l with l'
  end.
  rewrite render_str_0.
  rewrite FmtFacts.render_zero_padded by (simpl; lia).
  unfold Manifest.line, Manifest.timestamp, Str.TAB, Str.NL.
  rewrite !StrFacts.append_assoc.
  cbn [append tv_sec tv_nsec]. reflexivity.
Qed.

Lemma format_manifest (path : string) (st : stat) :
  0 <= tv_nsec (st_mtim st) < 1000000000 ->
  Fmt.format manifest_fmt (manifest_args path st)
  = Manifest.line path (st_size st) (st_mtim st) (logical st).
Proof.
  intros Hns. unfold manifest_args.
  rewrite format_manifest_fields by assumption.
  now destruct (st_mtim st).
Qed.

End FormatFacts.

(** ** Facts about the walker *)

Section FsnodeInduction.

Variable P : fsnode -> Prop.

Hypothesis HReg : forall st, P (Reg st).
Hypothesis HDir :
  forall st readable ents,
    Forall (fun e => P (snd e)) ents -> P (Dir st readable ents).
Hypothesis HLnkSome : forall st t, P t -> P (Lnk st (Some t)).
Hypothesis HLnkNone : forall st, P (Lnk st None).
Hypothesis HNoStat : P NoStat.
Hypothesis HOdd : forall st code, P (Odd st code).

Lemma fsnode_induction : forall n, P n.
Proof.
  fix IH 1. intros [st|st readable ents|st [t|]| |st code].
  - apply HReg.
  - apply HDir. induction ents as [|[name c] es IHes]; constructor.
    + apply IH.
    + exact IHes.
  - apply HLnkSome, IH.
  - apply HLnkNone.
  - apply HNoStat.
  - apply HOdd.
Qed.

End FsnodeInduction.

Section WalkFacts.

Context {hdr : ftw_h}.

Variable fn : visitor.
Variable descriptors : Z.
Variables phys mount : bool.
Variable dev : Z.

Abbreviation walk' := (walk fn descriptors phys mount dev).
Abbreviation walk_list' := (walk_list fn descriptors phys mount dev).

(** The walk of a directory, with its entries walked by [walk_list]. *)
Lemma walk_Dir level path st readable ents w :
  walk' level path (Dir st readable ents) w =
  if crosses mount dev st then (0, w)
  else if negb readable then fn path st FTW_DNR w
  else if descriptors <=? Z.of_nat level then (-1, w)
  else
    let (r, w1) := fn path st FTW_D w in
    if r =? 0 then walk_list' level path ents w1 else (r, w1).
Proof.
  cbn [walk].
  destruct (crosses mount dev st); [reflexivity|].
  destruct (negb readable); [reflexivity|].
  destruct (descriptors <=? Z.of_nat level); [reflexivity|].
  destruct (fn path st FTW_D w) as [r w1].
  destruct (r =? 0); [|reflexivity].
  revert w1. induction ents as [|[name c] es IH]; intros w1; [reflexivity|].
  cbn [walk_list].
  destruct (walk' (S level) (path ++ "/" ++ name) c w1) as [r' w'].
  destruct (r' =? 0); [apply IH | reflexivity].
Qed.

(** Entries after the one that stops the walk are not visited. *)
Lemma walk_list_app level path es1 es2 w :
  walk_list' level path (es1 ++ es2)%list w =
  let (r, w1) := walk_list' level path es1 w in
  if r =? 0 then walk_list' level path es2 w1 else (r, w1).
Proof.
  revert w. induction es1 as [|[name c] es IH]; intros w.
  - cbn. now destruct (walk_list' level path es2 w).
  - cbn [walk_list app].
    destruct (walk' (S level) (path ++ "/" ++ name) c w) as [r w1].
    destruct (r =? 0) eqn:E; [apply IH|].
    cbn. now rewrite E.
Qed.

Lemma walk_list_stops level path name c es w :
  fst (walk' (S level) (path ++ "/" ++ name) c w) <> 0 ->
  walk_list' level path ((name, c) :: es) w
  = walk' (S level) (path ++ "/" ++ name) c w.
Proof.
  intros H. cbn [walk_list].
  destruct (walk' (S level) (path ++ "/" ++ name) c w) as [r w1].
  cbn in H. destruct (r =? 0) eqn:E; [|reflexivity].
  apply Z.eqb_eq in E. contradiction.
Qed.

Lemma walk_list_continues level path name c es w :
  fst (walk' (S level) (path ++ "/" ++ name) c w) = 0 ->
  walk_list' level path ((name, c) :: es) w
  = walk_list' level path es
      (snd (walk' (S level) (path ++ "/" ++ name) c w)).
Proof.
  intros H. cbn [walk_list].
  destruct (walk' (S level) (path ++ "/" ++ name) c w) as [r w1].
  cbn in H. subst r. reflexivity.
Qed.

(** A property of (state before, return value, state after) that holds of
    every call of the visitor, of leaving the state alone with 0 or -1,
    and of sequencing after a 0, holds of every walk. *)
Section Invariant.

Variable J : world -> Z -> world -> Prop.

Hypothesis J_skip : forall w, J w 0 w.
Hypothesis J_fail : forall w, J w (-1) w.
Hypothesis J_fn :
  forall path st ty w, J w (fst (fn path st ty w)) (snd (fn path st ty w)).
Hypothesis J_seq :
  forall w w1 r w2, J w 0 w1 -> J w1 r w2 -> J w r w2.

Lemma walk_invariant n :
  forall level path w,
    J w (fst (walk' level path n w)) (snd (walk' level path n w)).
Proof.
  induction n as [st|st readable ents IH|st t IH|st| |st code]
    using fsnode_induction; intros level path w.
  - cbn [walk]. destruct (crosses mount dev st); [apply J_skip | apply J_fn].
  - rewrite walk_Dir.
    destruct (crosses mount dev st); [apply J_skip|].
    destruct (negb readable); [apply J_fn|].
    destruct (descriptors <=? Z.of_nat level); [apply J_fail|].
    pose proof (J_fn path st FTW_D w) as Hd.
    destruct (fn path st FTW_D w) as [r w1]. cbn [fst snd] in Hd.
    destruct (r =? 0) eqn:E; [|exact Hd].
    apply Z.eqb_eq in E. subst r.
    apply J_seq with (1 := Hd). clear Hd w.
    revert w1. induction IH as [|[name c] es Hc _ IHes]; intros w1.
    + apply J_skip.
    + cbn [walk_list]. cbn [snd] in Hc.
      specialize (Hc (S level) (path ++ "/" ++ name) w1).
      destruct (walk' (S level) (path ++ "/" ++ name) c w1) as [r w2].
      cbn [fst snd] in Hc.
      destruct (r =? 0) eqn:E; [|exact Hc].
      apply Z.eqb_eq in E. subst r.
      apply J_seq with (1 := Hc). apply IHes.
  - cbn [walk]. destruct phys.
    + destruct (crosses mount dev st); [apply J_skip | apply J_fn].
    + apply IH.
  - cbn [walk]. destruct phys.
    + destruct (crosses mount dev st); [apply J_skip | apply J_fn].
    + destruct (crosses mount dev st); [apply J_skip | apply J_fn].
  - cbn [walk]. apply J_fn.
  - cbn [walk]. destruct (crosses mount dev st); [apply J_skip | apply J_fn].
Qed.

End Invariant.

End WalkFacts.

(** ** Facts about the visitor [nftw_cb] *)

Section VisitorFacts.

Context {hdr : ftw_h}.

Variable stdout_fails : nat -> bool.

Abbreviation cb := (nftw_cb stdout_fails).

Lemma labels_neq :
  FTW_F <> FTW_D /\ FTW_F <> FTW_SL /\ FTW_F <> FTW_DNR /\ FTW_F <> FTW_NS
  /\ FTW_D <> FTW_SL /\ FTW_D <> FTW_DNR /\ FTW_D <> FTW_NS
  /\ FTW_SL <> FTW_DNR /\ FTW_SL <> FTW_NS /\ FTW_DNR <> FTW_NS.
Proof.
  pose proof ftw_labels_distinct as H.
  inversion_clear H as [|? ? H1 H']. inversion_clear H' as [|? ? H2 H''].
  inversion_clear H'' as [|? ? H3 H']. inversion_clear H' as [|? ? H4 _].
  cbn in H1, H2, H3, H4. intuition congruence.
Qed.

Lemma format_unreadable path :
  Fmt.format "Unable to read directory: %s" [Fmt.AStr path]
  = "Unable to read directory: " ++ path.
Proof.
  unfold Fmt.format.
  lazy -[Fmt.render_int Fmt.render_str append].
  rewrite render_str_0. now rewrite StrFacts.append_nil_r.
Qed.

Lemma format_stat_failed path :
  Fmt.format "stat failed at %s" [Fmt.AStr path] = "stat failed at " ++ path.
Proof.
  unfold Fmt.format.
  lazy -[Fmt.render_int Fmt.render_str append].
  rewrite render_str_0. now rewrite StrFacts.append_nil_r.
Qed.

Lemma format_print_failed path :
  Fmt.format "Failed to print information for: %s" [Fmt.AStr path]
  = "Failed to print information for: " ++ path.
Proof.
  unfold Fmt.format.
  lazy -[Fmt.render_int Fmt.render_str append].
  rewrite render_str_0. now rewrite StrFacts.append_nil_r.
Qed.

Lemma format_unknown_type path objtype :
  Fmt.format "%s: unknown type (%d)" [Fmt.AStr path; Fmt.AInt objtype]
  = path ++ ": unknown type (" ++ Manifest.decimal objtype ++ ")".
Proof.
  unfold Fmt.format.
  match goal with
  | |- ?l = _ =>
      let l' := eval lazy -[Fmt.render_int Fmt.render_str append] in l in
      change l with l'
  end.
  rewrite render_str_0, FmtFacts.render_plain. reflexivity.
Qed.

Lemma format_traversing root :
  Fmt.format "An error occured traversing %s" [Fmt.AStr root]
  = "An error occured traversing " ++ root.
Proof.
  unfold Fmt.format.
  lazy -[Fmt.render_int Fmt.render_str append].
  rewrite render_str_0. now rewrite StrFacts.append_nil_r.
Qed.

(** The five arms of the [switch], one lemma each. *)

Lemma nftw_cb_file_ok path st w :
  stdout_fails (printf_calls w) = false ->
  cb path st FTW_F w
  = (0, mkWorld
          (stdout w ++ [Fmt.format manifest_fmt (manifest_args path st)])%list
          (S (printf_calls w)) (stderr w) (error w)).
Proof.
  intros H. unfold nftw_cb, printf. rewrite Z.eqb_refl, H.
  destruct (Z.of_nat _ <? 0) eqn:E; [|reflexivity].
  apply Z.ltb_lt in E. lia.
Qed.

Lemma nftw_cb_file_fail path st w :
  stdout_fails (printf_calls w) = true ->
  cb path st FTW_F w
  = (1, mkWorld (stdout w) (S (printf_calls w))
          (stderr w
             ++ [Warnx ("Failed to print information for: " ++ path)])%list
          1).
Proof.
  intros H. unfold nftw_cb, printf. rewrite Z.eqb_refl, H.
  cbn [Z.ltb Z.compare]. unfold nftw_warn, vwarnx.
  now rewrite format_print_failed.
Qed.

Lemma nftw_cb_dir path st w : cb path st FTW_D w = (0, w).
Proof.
  unfold nftw_cb. destruct labels_neq as (H & _).
  replace (FTW_D =? FTW_F) with false by (symmetry; apply Z.eqb_neq; auto).
  now rewrite Z.eqb_refl.
Qed.

Lemma nftw_cb_symlink path st w : cb path st FTW_SL w = (0, w).
Proof.
  unfold nftw_cb. destruct labels_neq as (_ & H & _).
  replace (FTW_SL =? FTW_F) with false by (symmetry; apply Z.eqb_neq; auto).
  now rewrite Z.eqb_refl, orb_true_r.
Qed.

Lemma nftw_cb_unreadable path st w :
  cb path st FTW_DNR w
  = (0, mkWorld (stdout w) (printf_calls w)
          (stderr w ++ [Warnx ("Unable to read directory: " ++ path)])%list 1).
Proof.
  unfold nftw_cb. destruct labels_neq as (_ & _ & H1 & _ & _ & H2 & _ & H3 & _).
  replace (FTW_DNR =? FTW_F) with false by (symmetry; apply Z.eqb_neq; auto).
  replace (FTW_DNR =? FTW_D) with false by (symmetry; apply Z.eqb_neq; auto).
  replace (FTW_DNR =? FTW_SL) with false by (symmetry; apply Z.eqb_neq; auto).
  rewrite Z.eqb_refl. cbn [orb]. unfold nftw_warn, vwarnx.
  now rewrite format_unreadable.
Qed.

Lemma nftw_cb_nostat path st w :
  cb path st FTW_NS w
  = (0, mkWorld (stdout w) (printf_calls w)
          (stderr w ++ [Warnx ("stat failed at " ++ path)])%list 1).
Proof.
  unfold nftw_cb.
  destruct labels_neq as (_ & _ & _ & H1 & _ & _ & H2 & _ & H3 & H4).
  replace (FTW_NS =? FTW_F) with false by (symmetry; apply Z.eqb_neq; auto).
  replace (FTW_NS =? FTW_D) with false by (symmetry; apply Z.eqb_neq; auto).
  replace (FTW_NS =? FTW_SL) with false by (symmetry; apply Z.eqb_neq; auto).
  replace (FTW_NS =? FTW_DNR) with false by (symmetry; apply Z.eqb_neq; auto).
  rewrite Z.eqb_refl. cbn [orb]. unfold nftw_warn, vwarnx.
  now rewrite format_stat_failed.
Qed.

Lemma nftw_cb_default path st objtype w :
  objtype <> FTW_F -> objtype <> FTW_D -> objtype <> FTW_SL ->
  objtype <> FTW_DNR -> objtype <> FTW_NS ->
  cb path st objtype w
  = (1, mkWorld (stdout w) (printf_calls w)
          (stderr w
             ++ [Warnx (path ++ ": unknown type ("
                             ++ Manifest.decimal objtype ++ ")")])%list 1).
Proof.
  intros H1 H2 H3 H4 H5. unfold nftw_cb.
  apply Z.eqb_neq in H1, H2, H3, H4, H5. rewrite H1, H2, H3, H4, H5.
  cbn [orb]. unfold nftw_warn, vwarnx. now rewrite format_unknown_type.
Qed.

End VisitorFacts.

(** ** What a walk with [nftw_cb] does to the diagnostics and the flag *)

Section ReportFacts.

Context {hdr : ftw_h}.

Variable fs : string -> option fsnode.
Variable stdout_fails : nat -> bool.

Abbreviation cb' := (nftw_cb stdout_fails).

Lemma reported_skip w : reported w 0 w.
Proof.
  split; [auto|]. exists []. rewrite app_nil_r. split; [reflexivity|].
  left. repeat split. discriminate.
Qed.

Lemma reported_fail w : reported w (-1) w.
Proof.
  split; [auto|]. exists []. rewrite app_nil_r. split; [reflexivity|].
  left. repeat split. discriminate.
Qed.

Lemma reported_seq w w1 r w2 :
  reported w 0 w1 -> reported w1 r w2 -> reported w r w2.
Proof.
  intros [_ (ds1 & E1 & H1)] [Hr (ds2 & E2 & H2)].
  split; [exact Hr|]. exists (ds1 ++ ds2)%list.
  split; [now rewrite E2, E1, app_assoc|].
  destruct H2 as [(-> & Ee & Hn)|(Hd & Ee)].
  - rewrite app_nil_r. destruct H1 as [(-> & Ee1 & _)|(Hd1 & Ee1)].
    + left. repeat split; congruence.
    + right. split; congruence.
  - right. split; [|exact Ee].
    intros H. apply app_eq_nil in H. tauto.
Qed.

Lemma reported_one w r w' d :
  (r = 0 \/ r = 1 \/ r = -1) ->
  stderr w' = (stderr w ++ [d])%list -> error w' = 1 -> reported w r w'.
Proof.
  intros Hr Hs He. split; [exact Hr|]. exists [d]. split; [exact Hs|].
  right. split; [discriminate | exact He].
Qed.

Lemma reported_cb path st ty w :
  reported w (fst (cb' path st ty w)) (snd (cb' path st ty w)).
Proof.
  destruct (Z.eq_dec ty FTW_F) as [->|HF].
  { destruct (stdout_fails (printf_calls w)) eqn:E.
    - rewrite nftw_cb_file_fail by assumption.
      eapply reported_one; [auto | reflexivity | reflexivity].
    - rewrite nftw_cb_file_ok by assumption. cbn [fst snd].
      split; [auto|]. exists []. cbn [stderr error]. rewrite app_nil_r.
      split; [reflexivity|]. left. repeat split. discriminate. }
  destruct (Z.eq_dec ty FTW_D) as [->|HD].
  { rewrite nftw_cb_dir. apply reported_skip. }
  destruct (Z.eq_dec ty FTW_SL) as [->|HS].
  { rewrite nftw_cb_symlink. apply reported_skip. }
  destruct (Z.eq_dec ty FTW_DNR) as [->|HR].
  { rewrite nftw_cb_unreadable.
    eapply reported_one; [auto | reflexivity | reflexivity]. }
  destruct (Z.eq_dec ty FTW_NS) as [->|HN].
  { rewrite nftw_cb_nostat.
    eapply reported_one; [auto | reflexivity | reflexivity]. }
  rewrite nftw_cb_default by assumption.
  eapply reported_one; [auto | reflexivity | reflexivity].
Qed.

Lemma reported_walk descriptors phys mount dev n level path w :
  let r := walk cb' descriptors phys mount dev level path n w in
  reported w (fst r) (snd r).
Proof.
  cbv zeta. apply walk_invariant.
  - apply reported_skip.
  - apply reported_fail.
  - apply reported_cb.
  - apply reported_seq.
Qed.

Lemma reported_nftw root descriptors flags w :
  let r := nftw fs root cb' descriptors flags w in
  reported w (fst r) (snd r).
Proof.
  cbv zeta. unfold nftw. destruct (fs root) as [n|]; [|apply reported_fail].
  destruct (root_dev _ n) as [dev|]; [|apply reported_fail].
  apply reported_walk.
Qed.

(** Consequences. *)

Lemma reported_flag w r w' :
  reported w r w' -> error w' = error w \/ error w' = 1.
Proof. intros [_ (ds & _ & [(_ & H & _)|(_ & H)])]; auto. Qed.

Lemma reported_abort w w' : reported w 1 w' -> error w' = 1.
Proof.
  intros [_ (ds & _ & [(_ & _ & H)|(_ & H)])]; [congruence | exact H].
Qed.

Lemma reported_quiet w r w' :
  reported w r w' -> stderr w' = stderr w -> error w' = error w /\ r <> 1.
Proof.
  intros [_ (ds & E & H)] Hs. rewrite Hs in E.
  rewrite <- (app_nil_r (stderr w)) in E at 1.
  apply app_inv_head in E. subst ds.
  destruct H as [(_ & H1 & H2)|(H & _)]; [auto | congruence].
Qed.

Lemma reported_unflagged w r w' :
  reported w r w' -> error w = 0 -> error w' = 0 ->
  stderr w' = stderr w /\ r <> 1.
Proof.
  intros [_ (ds & E & H)] H0 H0'.
  destruct H as [(-> & _ & Hr)|(_ & H)]; [|congruence].
  rewrite app_nil_r in E. auto.
Qed.

End ReportFacts.

(** ** Facts about [main] *)

Section MainFacts.

Context {hdr : ftw_h}.

Variable fs : string -> option fsnode.
Variable stdout_fails : nat -> bool.

Abbreviation visit := (nftw_cb stdout_fails).
Abbreviation flags := (Z.lor FTW_PHYS FTW_MOUNT).
Abbreviation record q s := (Fmt.format manifest_fmt (manifest_args q s)).

Lemma land_lor_id a b : Z.land (Z.lor a b) a = a.
Proof.
  apply Z.bits_inj'. intros n _. rewrite Z.land_spec, Z.lor_spec.
  now destruct (Z.testbit a n), (Z.testbit b n).
Qed.

Lemma flags_phys : has_flag flags FTW_PHYS = true.
Proof.
  unfold has_flag. rewrite land_lor_id.
  apply negb_true_iff, Z.eqb_neq, FTW_PHYS_nonzero.
Qed.

Lemma flags_mount : has_flag flags FTW_MOUNT = true.
Proof.
  unfold has_flag. rewrite Z.lor_comm, land_lor_id.
  apply negb_true_iff, Z.eqb_neq, FTW_MOUNT_nonzero.
Qed.

Lemma crosses_false dev st : crosses true dev st = false -> st_dev st = dev.
Proof.
  unfold crosses. cbn [andb]. intros H.
  apply negb_false_iff, Z.eqb_eq in H. exact H.
Qed.

(** The visitor writes a record only for an entry classified as a file,
    and then the record of that entry. *)
Lemma visit_stdout path st ty w line :
  In line (stdout (snd (visit path st ty w))) ->
  In line (stdout w) \/ (ty = FTW_F /\ line = record path st).
Proof.
  destruct (Z.eq_dec ty FTW_F) as [->|HF].
  { destruct (stdout_fails (printf_calls w)) eqn:E.
    - rewrite nftw_cb_file_fail by assumption. cbn [snd stdout]. auto.
    - rewrite nftw_cb_file_ok by assumption. cbn [snd stdout].
      intros H. apply in_app_or in H. destruct H as [H|[H|[]]]; auto. }
  destruct (Z.eq_dec ty FTW_D) as [->|HD].
  { rewrite nftw_cb_dir. auto. }
  destruct (Z.eq_dec ty FTW_SL) as [->|HS].
  { rewrite nftw_cb_symlink. auto. }
  destruct (Z.eq_dec ty FTW_DNR) as [->|HR].
  { rewrite nftw_cb_unreadable. auto. }
  destruct (Z.eq_dec ty FTW_NS) as [->|HN].
  { rewrite nftw_cb_nostat. auto. }
  rewrite nftw_cb_default by assumption. auto.
Qed.

(** Every record a physical, mount-confined walk writes is the record of a
    file physically reachable on the root's device. *)
Lemma walk_sound descriptors dev line n :
  forall level path w,
    In line
       (stdout (snd (walk visit descriptors true true dev level path n w))) ->
    In line (stdout w)
    \/ exists q s, reach dev path n q s /\ line = record q s.
Proof.
  induction n as [st|st readable ents IH|st t IH|st| |st code]
    using fsnode_induction; intros level path w.
  - cbn [walk]. destruct (crosses true dev st) eqn:C; [auto|].
    intros H. apply visit_stdout in H. destruct H as [H|[_ ->]]; [auto|].
    right. exists path, st. split; [|reflexivity].
    apply reach_file, crosses_false, C.
  - rewrite walk_Dir. destruct (crosses true dev st) eqn:C; [auto|].
    destruct readable; cbn [negb].
    2:{ rewrite nftw_cb_unreadable. auto. }
    destruct (descriptors <=? Z.of_nat level); [auto|].
    rewrite nftw_cb_dir. cbn [Z.eqb].
    assert (G : forall es, Forall
                  (fun e => forall level path w,
                     In line (stdout (snd (walk visit descriptors true true
                                             dev level path (snd e) w))) ->
                     In line (stdout w)
                     \/ exists q s, reach dev path (snd e) q s
                                    /\ line = record q s) es ->
                forall w,
                  In line (stdout (snd (walk_list visit descriptors true true
                                          dev level path es w))) ->
                  In line (stdout w)
                  \/ exists name c q s,
                       In (name, c) es
                       /\ reach dev (path ++ "/" ++ name) c q s
                       /\ line = record q s).
    { clear. intros es HF.
      induction HF as [|[name c] es Hc _ IHes]; intros w;
        [cbn [walk_list snd]; auto|].
      cbn [walk_list]. cbn [snd] in Hc.
      specialize (Hc (S level) (path ++ "/" ++ name) w).
      destruct (walk visit descriptors true true dev (S level)
                  (path ++ "/" ++ name) c w) as [r w1].
      cbn [snd] in Hc.
      assert (Hhere : In line (stdout w1) ->
                      In line (stdout w)
                      \/ exists name0 c0 q s,
                           In (name0, c0) ((name, c) :: es)
                           /\ reach dev (path ++ "/" ++ name0) c0 q s
                           /\ line = record q s).
      { intros H. destruct (Hc H) as [H'|(q & s & Hr & ->)]; [auto|].
        right. exists name, c, q, s. cbn [In]. auto. }
      destruct (r =? 0); [|exact Hhere].
      intros H. destruct (IHes w1 H) as [H'|(n0 & c0 & q & s & Hi & Hr & ->)].
      - auto.
      - right. exists n0, c0, q, s. cbn [In]. auto. }
    intros H. destruct (G ents IH w H) as [H'|(n0 & c0 & q & s & Hi & Hr & ->)].
    + auto.
    + right. exists q, s. split; [|reflexivity].
      eapply reach_entry; eauto. apply crosses_false, C.
  - cbn [walk]. destruct (crosses true dev st); [auto|].
    rewrite nftw_cb_symlink. auto.
  - cbn [walk]. destruct (crosses true dev st); [auto|].
    rewrite nftw_cb_symlink. auto.
  - cbn [walk]. rewrite nftw_cb_nostat. auto.
  - cbn [walk]. destruct (crosses true dev st) eqn:C; [auto|].
    intros H. apply visit_stdout in H. destruct H as [H|[-> ->]]; [auto|].
    right. exists path, st. split; [|reflexivity].
    apply reach_as_file, crosses_false, C.
Qed.

Lemma nftw_sound root line w :
  In line (stdout (snd (nftw fs root visit MAX_DESCRIPTORS flags w))) ->
  In line (stdout w)
  \/ exists n dev q s,
       fs root = Some n /\ root_dev true n = Some dev
       /\ reach dev root n q s /\ line = record q s.
Proof.
  unfold nftw. rewrite flags_phys, flags_mount.
  destruct (fs root) as [n|]; [|auto].
  destruct (root_dev true n) as [dev|] eqn:Ed; [|auto].
  intros H. apply walk_sound in H. destruct H as [H|(q & s & Hr & ->)]; [auto|].
  right. exists n, dev, q, s. repeat split; auto.
Qed.

(** One turn of the loop of [main]. *)
Lemma main_loop_cons root rest w :
  main_loop fs stdout_fails flags (root :: rest) w =
  let r := nftw fs root visit MAX_DESCRIPTORS flags w in
  if fst r =? 1 then snd r
  else if fst r =? -1 then
    main_loop fs stdout_fails flags rest
      (mkWorld (stdout (snd r)) (printf_calls (snd r))
         (stderr (snd r) ++ [Warn ("An error occured traversing " ++ root)])
         1)
  else main_loop fs stdout_fails flags rest (snd r).
Proof.
  cbn [main_loop]. cbv zeta.
  destruct (nftw fs root visit MAX_DESCRIPTORS flags w) as [ret w1].
  cbn [fst snd].
  destruct (ret =? 1) eqn:E1.
  - apply Z.eqb_eq in E1. subst ret. reflexivity.
  - destruct (ret =? -1); [|reflexivity].
    unfold warn. now rewrite format_traversing.
Qed.

Lemma main_loop_sound roots line :
  forall w,
    In line (stdout (main_loop fs stdout_fails flags roots w)) ->
    In line (stdout w)
    \/ exists root n dev q s,
         In root roots /\ fs root = Some n /\ root_dev true n = Some dev
         /\ reach dev root n q s /\ line = record q s.
Proof.
  induction roots as [|root rest IH]; intros w; [cbn [main_loop]; auto|].
  rewrite main_loop_cons. cbv zeta.
  assert (Hroot : In line
            (stdout (snd (nftw fs root visit MAX_DESCRIPTORS flags w))) ->
          In line (stdout w)
          \/ exists root0 n dev q s,
               In root0 (root :: rest) /\ fs root0 = Some n
               /\ root_dev true n = Some dev
               /\ reach dev root0 n q s /\ line = record q s).
  { intros H. apply nftw_sound in H.
    destruct H as [H|(n & dev & q & s & H1 & H2 & H3 & ->)]; [auto|].
    right. exists root, n, dev, q, s. cbn [In]. auto 6. }
  assert (Hrest : forall w1,
            (In line (stdout w1) ->
             In line
               (stdout (snd (nftw fs root visit MAX_DESCRIPTORS flags w)))) ->
            In line (stdout (main_loop fs stdout_fails flags rest w1)) ->
            In line (stdout w)
            \/ exists root0 n dev q s,
                 In root0 (root :: rest) /\ fs root0 = Some n
                 /\ root_dev true n = Some dev
                 /\ reach dev root0 n q s /\ line = record q s).
  { intros w1 Hw1 H. apply IH in H.
    destruct H as [H|(r0 & n & dev & q & s & H0 & H1 & H2 & H3 & ->)].
    - auto.
    - right. exists r0, n, dev, q, s. cbn [In]. auto 6. }
  destruct (fst _ =? 1); [exact Hroot|].
  destruct (fst _ =? -1); apply Hrest; auto.
Qed.

(** The flag is never cleared by the loop. *)
Lemma main_loop_flag roots :
  forall w,
    error (main_loop fs stdout_fails flags roots w) = error w
    \/ error (main_loop fs stdout_fails flags roots w) = 1.
Proof.
  induction roots as [|root rest IH]; intros w; [now left|].
  rewrite main_loop_cons. cbv zeta.
  pose proof (reported_nftw fs stdout_fails root MAX_DESCRIPTORS flags w) as R.
  cbv zeta in R. apply reported_flag in R.
  destruct (fst _ =? 1); [exact R|].
  destruct (fst _ =? -1).
  - match goal with |- context [main_loop _ _ _ rest ?w1] =>
      destruct (IH w1) as [H|H]; rewrite H; cbn [error]; auto end.
  - match goal with |- context [main_loop _ _ _ rest ?w1] =>
      destruct (IH w1) as [H|H]; rewrite H; auto end.
Qed.

(** With the flag clear at the start, the loop leaves it clear exactly
    when the run is clean. *)
Lemma main_loop_clean roots :
  forall w,
    error w = 0 ->
    (error (main_loop fs stdout_fails flags roots w) = 0
     <-> roots_clean fs stdout_fails flags roots w).
Proof.
  induction roots as [|root rest IH]; intros w H0;
    [cbn [main_loop roots_clean]; tauto|].
  rewrite main_loop_cons. cbv zeta. cbn [roots_clean].
  pose proof (reported_nftw fs stdout_fails root MAX_DESCRIPTORS flags w) as R.
  cbv zeta in R.
  destruct (nftw fs root visit MAX_DESCRIPTORS flags w) as [ret w1].
  cbn [fst snd] in *.
  destruct (ret =? 1) eqn:E1.
  { apply Z.eqb_eq in E1. subst ret. apply reported_abort in R.
    split; [congruence | intros (H & _); discriminate]. }
  apply Z.eqb_neq in E1.
  destruct (ret =? -1) eqn:E2.
  { apply Z.eqb_eq in E2. subst ret. split; [|intros (H & _); discriminate].
    intros H.
    match type of H with error (main_loop _ _ _ _ ?w2) = 0 =>
      destruct (main_loop_flag rest w2) as [H'|H']; rewrite H' in H;
      cbn [error] in H; discriminate end. }
  apply Z.eqb_neq in E2.
  assert (Hret : ret = 0) by (destruct R as [[?|[?|?]] _]; congruence).
  subst ret. split.
  - intros H.
    assert (H1 : error w1 = 0).
    { destruct (main_loop_flag rest w1) as [H'|H']; [congruence|].
      rewrite H' in H. discriminate. }
    destruct (reported_unflagged _ _ _ R H0 H1) as [Hs _].
    repeat split; [exact Hs|]. apply IH; assumption.
  - intros (_ & Hs & Hc).
    destruct (reported_quiet _ _ _ R Hs) as [He _].
    apply IH; [congruence | exact Hc].
Qed.

End MainFacts.

(** * Properties of the specification *)

(** ** The visitor *)

Lemma logical_nonneg_blocks (b : Z) :
  0 <= b ->
  Z.quot b 2 + Z.rem b 2 = Manifest.physical_kb b
  /\ 2 * Manifest.physical_kb b - 2 < b <= 2 * Manifest.physical_kb b.
Proof.
  intros Hb. rewrite Z.quot_div_nonneg, Z.rem_mod_nonneg by lia.
  unfold Manifest.physical_kb.
  pose proof (Z.div_mod b 2 ltac:(lia)) as Hdm.
  rewrite Zmod_even in *. destruct (Z.even b); lia.
Qed.

(** In the range of [blkcnt_t] the sum does not overflow. *)
Lemma logical_in_range (st : stat) :
  - 2 ^ 63 <= st_blocks st < 2 ^ 63 -> - 2 ^ 63 <= logical st < 2 ^ 63.
Proof.
  intros H. unfold logical.
  pose proof (Z.quot_rem' (st_blocks st) 2) as E.
  pose proof (Z.rem_bound_abs (st_blocks st) 2 ltac:(lia)). lia.
Qed.

(** C4.  For a regular file with a valid nanosecond count, the line the
    visitor writes is the path, the size in bytes, the time stamp and the
    physical size, separated by tabs and ended by a newline; the time stamp
    is the seconds, a dot, the nanoseconds as exactly nine digits, and one
    more zero.  Seconds 1700000000 and nanoseconds 123456789 give
    1700000000.1234567890. *)
Theorem manifest_line_layout {hdr : ftw_h} (stdout_fails : nat -> bool)
  (path : string) (st : stat) (w : world) :
  0 <= tv_nsec (st_mtim st) < 1000000000 ->
  stdout_fails (printf_calls w) = false ->
  fst (nftw_cb stdout_fails path st FTW_F w) = 0
  /\ stdout (snd (nftw_cb stdout_fails path st FTW_F w))
     = (stdout w
          ++ [(path ++ Str.TAB ++ Manifest.decimal (st_size st) ++ Str.TAB
                 ++ (Manifest.decimal (tv_sec (st_mtim st)) ++ "."
                       ++ Manifest.fixed_digits 9 (tv_nsec (st_mtim st))
                       ++ "0")
                 ++ Str.TAB ++ Manifest.decimal (logical st)
                 ++ Str.NL)%string])%list
  /\ String.length (Manifest.fixed_digits 9 (tv_nsec (st_mtim st))) = 9%nat
  /\ Manifest.timestamp {| tv_sec := 1700000000; tv_nsec := 123456789 |}
     = "1700000000.1234567890".
Proof.
  intros Hns Hok. rewrite nftw_cb_file_ok by assumption. cbn [fst snd stdout].
  split; [reflexivity|]. split; [|split].
  - rewrite format_manifest by assumption. reflexivity.
  - apply FmtFacts.length_fixed_digits.
  - vm_compute. reflexivity.
Qed.

(** The example line of the specification. *)
Example manifest_line_sample :
  stdout (snd (nftw_cb (hdr := Sample.hdr) Sample.never_fails
                 "/manta/acct-1/obj-42" Sample.st_obj (@FTW_F Sample.hdr)
                 world0))
  = ["/manta/acct-1/obj-42" ++ Str.TAB ++ "1048576" ++ Str.TAB
       ++ "1700000000.1234567890" ++ Str.TAB ++ "1025" ++ Str.NL].
Proof. vm_compute. reflexivity. Qed.

Lemma manifest_line_layout_witness :
  0 <= tv_nsec (st_mtim Sample.st_obj) < 1000000000
  /\ Sample.never_fails (printf_calls world0) = false
  /\ fst (nftw_cb (hdr := Sample.hdr) Sample.never_fails
            "/manta/acct-1/obj-42" Sample.st_obj (@FTW_F Sample.hdr) world0)
      = 0.
Proof.
  assert (H1 : 0 <= tv_nsec (st_mtim Sample.st_obj) < 1000000000)
    by (cbn; lia).
  assert (H2 : Sample.never_fails (printf_calls world0) = false)
    by reflexivity.
  split; [exact H1|]. split; [exact H2|].
  exact (proj1 (manifest_line_layout (hdr := Sample.hdr)
                  Sample.never_fails "/manta/acct-1/obj-42" Sample.st_obj
                  world0 H1 H2)).
Defined.

Lemma crosses_same_dev (mount : bool) (st : stat) :
  crosses mount (st_dev st) st = false.
Proof. unfold crosses. rewrite Z.eqb_refl. apply andb_false_r. Qed.

(** C5.  Called with an object type that is none of the recognised ones,
    the visitor writes no record, reports "<path>: unknown type (<type>)",
    sets the flag and returns 1; the walk then stops: the entries that
    follow in the directory are not visited. *)
Theorem unknown_type_aborts_root {hdr : ftw_h} (stdout_fails : nat -> bool)
  (path : string) (st : stat) (objtype : Z) (w : world) :
  ~ In objtype [FTW_F; FTW_D; FTW_SL; FTW_DNR; FTW_NS] ->
  fst (nftw_cb stdout_fails path st objtype w) = 1
  /\ stdout (snd (nftw_cb stdout_fails path st objtype w)) = stdout w
  /\ stderr (snd (nftw_cb stdout_fails path st objtype w))
     = (stderr w
          ++ [Warnx (path ++ ": unknown type (" ++ Manifest.decimal objtype
                          ++ ")")])%list
  /\ error (snd (nftw_cb stdout_fails path st objtype w)) = 1
  /\ forall descriptors phys mount level dir name es,
       walk_list (nftw_cb stdout_fails) descriptors phys mount (st_dev st)
         level dir ((name, Odd st objtype) :: es) w
       = nftw_cb stdout_fails (dir ++ "/" ++ name) st objtype w.
Proof.
  intros Hn. cbn [In] in Hn.
  assert (H : forall p,
             nftw_cb stdout_fails p st objtype w
             = (1, mkWorld (stdout w) (printf_calls w)
                     (stderr w
                        ++ [Warnx (p ++ ": unknown type ("
                                     ++ Manifest.decimal objtype ++ ")")])%list
                     1)).
  { intros p. apply nftw_cb_default; intros E; apply Hn; rewrite E; tauto. }
  rewrite H. cbn [fst snd stdout stderr error]. repeat split.
  intros descriptors phys mount level dir name es.
  rewrite walk_list_stops; cbn [walk]; rewrite crosses_same_dev.
  - reflexivity.
  - rewrite H. discriminate.
Qed.

Lemma unknown_type_aborts_root_witness :
  ~ In 99 [@FTW_F Sample.hdr; @FTW_D Sample.hdr; @FTW_SL Sample.hdr;
           @FTW_DNR Sample.hdr; @FTW_NS Sample.hdr]
  /\ fst (nftw_cb (hdr := Sample.hdr) Sample.never_fails "/r1/x"
            Sample.st_obj 99 world0) = 1.
Proof.
  assert (H : ~ In 99 [@FTW_F Sample.hdr; @FTW_D Sample.hdr;
                       @FTW_SL Sample.hdr; @FTW_DNR Sample.hdr;
                       @FTW_NS Sample.hdr])
    by (cbn; intuition discriminate).
  split; [exact H|].
  exact (proj1 (unknown_type_aborts_root (hdr := Sample.hdr)
                  Sample.never_fails "/r1/x" Sample.st_obj 99 world0 H)).
Defined.

(** C6.  Called for an unreadable directory or for an entry whose stat
    failed, the visitor writes no record, reports "Unable to read
    directory: <path>" or "stat failed at <path>", sets the flag and
    returns 0; the walk goes on with the entries that follow. *)
Theorem unreadable_and_nostat_continue {hdr : ftw_h}
  (stdout_fails : nat -> bool) (path : string) (st : stat) (w : world) :
  nftw_cb stdout_fails path st FTW_DNR w
  = (0, mkWorld (stdout w) (printf_calls w)
          (stderr w ++ [Warnx ("Unable to read directory: " ++ path)])%list 1)
  /\ nftw_cb stdout_fails path st FTW_NS w
     = (0, mkWorld (stdout w) (printf_calls w)
             (stderr w ++ [Warnx ("stat failed at " ++ path)])%list 1)
  /\ (forall descriptors phys mount level dir name ents es,
        walk_list (nftw_cb stdout_fails) descriptors phys mount (st_dev st)
          level dir ((name, Dir st false ents) :: es) w
        = walk_list (nftw_cb stdout_fails) descriptors phys mount (st_dev st)
            level dir es
            (snd (nftw_cb stdout_fails (dir ++ "/" ++ name) st FTW_DNR w)))
  /\ (forall descriptors phys mount dev level dir name es,
        walk_list (nftw_cb stdout_fails) descriptors phys mount dev
          level dir ((name, NoStat) :: es) w
        = walk_list (nftw_cb stdout_fails) descriptors phys mount dev
            level dir es
            (snd (nftw_cb stdout_fails (dir ++ "/" ++ name) undef_stat
                    FTW_NS w))).
Proof.
  split; [apply nftw_cb_unreadable|]. split; [apply nftw_cb_nostat|]. split.
  - intros descriptors phys mount level dir name ents es.
    rewrite walk_list_continues; rewrite walk_Dir, crosses_same_dev;
      cbn [negb]; [reflexivity|].
    now rewrite nftw_cb_unreadable.
  - intros descriptors phys mount dev level dir name es.
    rewrite walk_list_continues; cbn [walk]; [reflexivity|].
    now rewrite nftw_cb_nostat.
Qed.

(** C2, as stated, fails: when the first record cannot be written the
    visitor returns 1, not 0, and the second file of the directory, whose
    record could be written, never reaches the manifest. *)
Lemma emission_failure_not_recoverable :
  Sample.fails_first (printf_calls world0) = true
  /\ fst (nftw_cb (hdr := Sample.hdr) Sample.fails_first "/two/f"
            Sample.st_obj (@FTW_F Sample.hdr) world0) <> 0
  /\ Sample.fails_first 1 = false
  /\ stdout (snd (main (hdr := Sample.hdr) Sample.fs Sample.fails_first
                    ["makofind"; "/two"] world0)) = [].
Proof. vm_compute. repeat split. discriminate. Qed.

(** C2, amended.  When the record of a regular file cannot be written,
    the visitor reports "Failed to print information for: <path>", sets
    the flag and returns 1: the record is lost and the walk stops there,
    the entries that follow in the directory are not visited. *)
Theorem emission_failure_aborts {hdr : ftw_h} (stdout_fails : nat -> bool)
  (path : string) (st : stat) (w : world) :
  stdout_fails (printf_calls w) = true ->
  fst (nftw_cb stdout_fails path st FTW_F w) = 1
  /\ stdout (snd (nftw_cb stdout_fails path st FTW_F w)) = stdout w
  /\ stderr (snd (nftw_cb stdout_fails path st FTW_F w))
     = (stderr w
          ++ [Warnx ("Failed to print information for: " ++ path)])%list
  /\ error (snd (nftw_cb stdout_fails path st FTW_F w)) = 1
  /\ forall descriptors phys mount level dir name es,
       walk_list (nftw_cb stdout_fails) descriptors phys mount (st_dev st)
         level dir ((name, Reg st) :: es) w
       = nftw_cb stdout_fails (dir ++ "/" ++ name) st FTW_F w.
Proof.
  intros Hf. rewrite nftw_cb_file_fail by assumption.
  cbn [fst snd stdout stderr error]. repeat split.
  intros descriptors phys mount level dir name es.
  rewrite walk_list_stops; cbn [walk]; rewrite crosses_same_dev.
  - reflexivity.
  - rewrite nftw_cb_file_fail by assumption. discriminate.
Qed.

Lemma emission_failure_aborts_witness :
  Sample.always_fails (printf_calls world0) = true
  /\ fst (nftw_cb (hdr := Sample.hdr) Sample.always_fails "/r2/f"
            Sample.st_obj (@FTW_F Sample.hdr) world0) = 1.
Proof.
  assert (H : Sample.always_fails (printf_calls world0) = true)
    by reflexivity.
  split; [exact H|].
  exact (proj1 (emission_failure_aborts (hdr := Sample.hdr)
                  Sample.always_fails "/r2/f" Sample.st_obj world0 H)).
Defined.

(** ** The loop over the roots *)

Lemma format_usage (arg0 : string) :
  Fmt.format ("usage: %s dir1 dir2 ... dirN" ++ Str.NL) [Fmt.AStr arg0]
  = "usage: " ++ arg0 ++ " dir1 dir2 ... dirN" ++ Str.NL.
Proof.
  unfold Fmt.format.
  match goal with
  | |- Fmt.vformat _ ?f _ = _ =>
      let f' := eval vm_compute in f in change f with f'
  end.
  match goal with
  | |- ?l = _ =>
      let l' := eval lazy -[Fmt.render_int Fmt.render_str append] in l in
      change l with l'
  end.
  rewrite render_str_0. reflexivity.
Qed.

(** C9.  With no root argument, [main] writes the usage line to standard
    error and exits with status 1; nothing is written to standard output
    and no call of [printf] is made, whatever the file system holds: no
    walk takes place. *)
Theorem no_roots_usage {hdr : ftw_h} (fs : string -> option fsnode)
  (stdout_fails : nat -> bool) (argv : list string) (w : world) :
  (List.length argv < 2)%nat ->
  main fs stdout_fails argv w
  = (1, mkWorld (stdout w) (printf_calls w)
          (stderr w
             ++ [Fprintf ("usage: " ++ nth 0 argv "(null)"
                            ++ " dir1 dir2 ... dirN" ++ Str.NL)])%list
          (error w)).
Proof.
  intros Hlen. unfold main.
  replace (Z.of_nat (List.length argv) <? 2) with true
    by (symmetry; apply Z.ltb_lt; lia).
  unfold fprintf_stderr, put_stderr. now rewrite format_usage.
Qed.

Lemma no_roots_usage_witness :
  (List.length ["makofind"] < 2)%nat
  /\ fst (main (hdr := Sample.hdr) Sample.fs Sample.never_fails ["makofind"]
            world0) = 1.
Proof.
  assert (H : (List.length ["makofind"] < 2)%nat) by (cbn; lia).
  split; [exact H|].
  exact (f_equal fst (no_roots_usage (hdr := Sample.hdr) Sample.fs
                        Sample.never_fails ["makofind"] world0 H)).
Defined.

(** C10.  When nftw fails with -1 on a root, as it does when the root does
    not exist, [main] reports "An error occured traversing <root>", sets
    the flag and goes on with the remaining roots.  The loop is left early
    only when nftw returns 1, the visitor's abort value; with any other
    value the remaining roots are attempted. *)
Theorem walk_failure_continues {hdr : ftw_h} (fs : string -> option fsnode)
  (stdout_fails : nat -> bool) (root : string) (rest : list string)
  (w : world) :
  (fs root = None ->
   nftw fs root (nftw_cb stdout_fails) MAX_DESCRIPTORS
     (Z.lor FTW_PHYS FTW_MOUNT) w = (-1, w))
  /\ (fst (nftw fs root (nftw_cb stdout_fails) MAX_DESCRIPTORS
             (Z.lor FTW_PHYS FTW_MOUNT) w) = -1 ->
      main_loop fs stdout_fails (Z.lor FTW_PHYS FTW_MOUNT) (root :: rest) w
      = main_loop fs stdout_fails (Z.lor FTW_PHYS FTW_MOUNT) rest
          (let w1 := snd (nftw fs root (nftw_cb stdout_fails) MAX_DESCRIPTORS
                            (Z.lor FTW_PHYS FTW_MOUNT) w) in
           mkWorld (stdout w1) (printf_calls w1)
             (stderr w1 ++ [Warn ("An error occured traversing " ++ root)])
             1))
  /\ (fst (nftw fs root (nftw_cb stdout_fails) MAX_DESCRIPTORS
             (Z.lor FTW_PHYS FTW_MOUNT) w) = 1 ->
      main_loop fs stdout_fails (Z.lor FTW_PHYS FTW_MOUNT) (root :: rest) w
      = snd (nftw fs root (nftw_cb stdout_fails) MAX_DESCRIPTORS
               (Z.lor FTW_PHYS FTW_MOUNT) w))
  /\ (fst (nftw fs root (nftw_cb stdout_fails) MAX_DESCRIPTORS
             (Z.lor FTW_PHYS FTW_MOUNT) w) <> 1 ->
      fst (nftw fs root (nftw_cb stdout_fails) MAX_DESCRIPTORS
             (Z.lor FTW_PHYS FTW_MOUNT) w) <> -1 ->
      main_loop fs stdout_fails (Z.lor FTW_PHYS FTW_MOUNT) (root :: rest) w
      = main_loop fs stdout_fails (Z.lor FTW_PHYS FTW_MOUNT) rest
          (snd (nftw fs root (nftw_cb stdout_fails) MAX_DESCRIPTORS
                  (Z.lor FTW_PHYS FTW_MOUNT) w))).
Proof.
  split; [|split; [|split]].
  - intros H. unfold nftw. now rewrite H.
  - intros H. rewrite main_loop_cons. cbv zeta. rewrite H. reflexivity.
  - intros H. rewrite main_loop_cons. cbv zeta. rewrite H. reflexivity.
  - intros H1 H2. rewrite main_loop_cons. cbv zeta.
    apply Z.eqb_neq in H1, H2. now rewrite H1, H2.
Qed.

(** A missing first root does not keep the second from being walked. *)
Example missing_root_then_next :
  main (hdr := Sample.hdr) Sample.fs Sample.never_fails
    ["makofind"; "/zz"; "/r2"] world0
  = (1, mkWorld [Manifest.record_of "/r2/f" Sample.st_obj] 1
          [Warn "An error occured traversing /zz"] 1).
Proof. vm_compute. reflexivity. Qed.

(** C1, as stated, fails: [/r1] holds an object of unknown type, so its
    walk returns 1; [/r2], walked alone, yields the record of [/r2/f]; but
    with the roots [/r1] and [/r2] that record is not in the manifest. *)
Lemma abort_skips_later_roots :
  fst (nftw (hdr := Sample.hdr) Sample.fs "/r1"
         (nftw_cb (hdr := Sample.hdr) Sample.never_fails) MAX_DESCRIPTORS
         (Z.lor (@FTW_PHYS Sample.hdr) (@FTW_MOUNT Sample.hdr)) world0) = 1
  /\ stdout (snd (main (hdr := Sample.hdr) Sample.fs Sample.never_fails
                    ["makofind"; "/r2"] world0))
     = [Manifest.record_of "/r2/f" Sample.st_obj]
  /\ ~ In (Manifest.record_of "/r2/f" Sample.st_obj)
         (stdout (snd (main (hdr := Sample.hdr) Sample.fs Sample.never_fails
                         ["makofind"; "/r1"; "/r2"] world0))).
Proof.
  split; [vm_compute; reflexivity|]. split; [vm_compute; reflexivity|].
  vm_compute. intros H. exact H.
Qed.

(** C1, amended.  When the visitor aborts the walk of a root (nftw returns
    1), that walk stops at the entry that aborted it, no later root is
    attempted: the final state is the state at the abort, and the exit
    status is 1. *)
Theorem visitor_abort_stops_all_roots {hdr : ftw_h}
  (fs : string -> option fsnode) (stdout_fails : nat -> bool)
  (prog root : string) (rest : list string) (w : world) :
  fst (nftw fs root (nftw_cb stdout_fails) MAX_DESCRIPTORS
         (Z.lor FTW_PHYS FTW_MOUNT) w) = 1 ->
  main fs stdout_fails (prog :: root :: rest) w
  = (1, snd (nftw fs root (nftw_cb stdout_fails) MAX_DESCRIPTORS
               (Z.lor FTW_PHYS FTW_MOUNT) w))
  /\ forall descriptors phys mount dev level dir name c es w',
       fst (walk (nftw_cb stdout_fails) descriptors phys mount dev (S level)
              (dir ++ "/" ++ name) c w') <> 0 ->
       walk_list (nftw_cb stdout_fails) descriptors phys mount dev level dir
         ((name, c) :: es) w'
       = walk (nftw_cb stdout_fails) descriptors phys mount dev (S level)
           (dir ++ "/" ++ name) c w'.
Proof.
  intros H. split.
  - unfold main.
    replace (Z.of_nat (List.length (prog :: root :: rest)) <? 2) with false
      by (symmetry; apply Z.ltb_ge; cbn [List.length]; lia).
    cbn [tl]. rewrite main_loop_cons. cbv zeta. rewrite H. cbn [Z.eqb Pos.eqb].
    pose proof (reported_nftw fs stdout_fails root MAX_DESCRIPTORS
                  (Z.lor FTW_PHYS FTW_MOUNT) w) as R.
    cbv zeta in R. rewrite H in R. apply reported_abort in R.
    now rewrite R.
  - intros. now apply walk_list_stops.
Qed.

Lemma visitor_abort_stops_all_roots_witness :
  fst (nftw (hdr := Sample.hdr) Sample.fs "/r1"
         (nftw_cb (hdr := Sample.hdr) Sample.never_fails) MAX_DESCRIPTORS
         (Z.lor (@FTW_PHYS Sample.hdr) (@FTW_MOUNT Sample.hdr)) world0) = 1
  /\ fst (main (hdr := Sample.hdr) Sample.fs Sample.never_fails
            ["makofind"; "/r1"; "/r2"] world0) = 1.
Proof.
  assert (H : fst (nftw (hdr := Sample.hdr) Sample.fs "/r1"
                     (nftw_cb (hdr := Sample.hdr) Sample.never_fails)
                     MAX_DESCRIPTORS
                     (Z.lor (@FTW_PHYS Sample.hdr) (@FTW_MOUNT Sample.hdr))
                     world0) = 1)
    by (vm_compute; reflexivity).
  split; [exact H|].
  exact (f_equal fst
           (proj1 (visitor_abort_stops_all_roots (hdr := Sample.hdr)
                     Sample.fs Sample.never_fails "makofind" "/r1" ["/r2"]
                     world0 H))).
Defined.

(** ** The failure flag and the exit status *)

(** A run over a tree with an unreadable directory ends with status 1; a
    run over a tree without errors ends with status 0. *)
Example exit_status_samples :
  fst (main (hdr := Sample.hdr) Sample.fs Sample.never_fails
         ["makofind"; "/a"] world0) = 1
  /\ fst (main (hdr := Sample.hdr) Sample.fs Sample.never_fails
            ["makofind"; "/r2"; "/two"] world0) = 0.
Proof. split; vm_compute; reflexivity. Qed.

(** ** Symbolic links and mount points *)

(** C8.  Under the flags [main] passes, a symbolic link is handed to the
    visitor as a link, which writes nothing, and what it points to is not
    walked; an entry on another device than the root is neither visited nor
    descended into; so every record in the manifest is the record of a
    file reached from a root through readable directories only, all on
    the root's device. *)
Theorem manifest_physical_and_mount_confined {hdr : ftw_h}
  (fs : string -> option fsnode) (stdout_fails : nat -> bool) :
  (forall path st w, nftw_cb stdout_fails path st FTW_SL w = (0, w))
  /\ (forall descriptors mount dev level path st target w,
        walk (nftw_cb stdout_fails) descriptors
          (has_flag (Z.lor FTW_PHYS FTW_MOUNT) FTW_PHYS) mount dev level path
          (Lnk st target) w = (0, w))
  /\ (forall (fn : visitor) descriptors dev level path n st w,
        lstat_of n = Some st -> st_dev st <> dev ->
        walk fn descriptors
          (has_flag (Z.lor FTW_PHYS FTW_MOUNT) FTW_PHYS)
          (has_flag (Z.lor FTW_PHYS FTW_MOUNT) FTW_MOUNT) dev level path n w
        = (0, w))
  /\ (forall argv w line,
        In line (stdout (snd (main fs stdout_fails argv w))) ->
        In line (stdout w)
        \/ exists root n dev q s,
             In root (tl argv) /\ fs root = Some n
             /\ root_dev true n = Some dev /\ reach dev root n q s
             /\ line = Fmt.format manifest_fmt (manifest_args q s)).
Proof.
  split; [apply nftw_cb_symlink|]. split; [|split].
  - intros descriptors mount dev level path st target w.
    rewrite flags_phys. cbn [walk].
    destruct (crosses mount dev st); [reflexivity | apply nftw_cb_symlink].
  - intros fn descriptors dev level path n st w Hst Hdev.
    rewrite flags_phys, flags_mount.
    assert (C : crosses true dev st = true).
    { unfold crosses. cbn [andb]. apply negb_true_iff, Z.eqb_neq, Hdev. }
    destruct n as [s|s readable ents|s target| |s code]; cbn in Hst;
      try discriminate; injection Hst as ->.
    + cbn [walk]. now rewrite C.
    + rewrite walk_Dir. now rewrite C.
    + cbn [walk]. now rewrite C.
    + cbn [walk]. now rewrite C.
  - intros argv w line. unfold main.
    destruct (Z.of_nat (List.length argv) <? 2); cbn [snd].
    + unfold fprintf_stderr, put_stderr. cbn [stdout]. auto.
    + apply main_loop_sound.
Qed.

(** The tree [/a]: only [/a/f] reaches the manifest.  The file behind the
    link [/a/l] and the file under the mount point [/a/b] do not; they
    would without the two flags. *)
Example confined_sample :
  stdout (snd (main (hdr := Sample.hdr) Sample.fs Sample.never_fails
                 ["makofind"; "/a"] world0))
  = [Manifest.record_of "/a/f" Sample.st_obj]
  /\ stdout (snd (nftw (hdr := Sample.hdr) Sample.fs "/a"
                    (nftw_cb (hdr := Sample.hdr) Sample.never_fails)
                    MAX_DESCRIPTORS 0 world0))
     = [Manifest.record_of "/a/f" Sample.st_obj;
        Manifest.record_of "/a/l/t" Sample.st_obj;
        Manifest.record_of "/a/b/f" Sample.st_far].
Proof. split; vm_compute; reflexivity. Qed.

(** ** The general statements at concrete inputs *)

Lemma walk_failure_continues_witness :
  Sample.fs "/zz" = None
  /\ nftw (hdr := Sample.hdr) Sample.fs "/zz"
       (nftw_cb (hdr := Sample.hdr) Sample.never_fails) MAX_DESCRIPTORS
       (Z.lor (@FTW_PHYS Sample.hdr) (@FTW_MOUNT Sample.hdr)) world0
     = (-1, world0).
Proof.
  assert (H : Sample.fs "/zz" = None) by reflexivity.
  split; [exact H|].
  exact (proj1 (walk_failure_continues (hdr := Sample.hdr) Sample.fs
                  Sample.never_fails "/zz" ["/r2"] world0) H).
Defined.

Lemma manifest_physical_and_mount_confined_witness :
  In (Manifest.record_of "/a/f" Sample.st_obj)
     (stdout (snd (main (hdr := Sample.hdr) Sample.fs Sample.never_fails
                     ["makofind"; "/a"] world0)))
  /\ (In (Manifest.record_of "/a/f" Sample.st_obj) (stdout world0)
      \/ exists root n dev q s,
           In root (tl ["makofind"; "/a"]) /\ Sample.fs root = Some n
           /\ root_dev true n = Some dev
           /\ reach (hdr := Sample.hdr) dev root n q s
           /\ Manifest.record_of "/a/f" Sample.st_obj
              = Fmt.format manifest_fmt (manifest_args q s)).
Proof.
  assert (H : In (Manifest.record_of "/a/f" Sample.st_obj)
                (stdout (snd (main (hdr := Sample.hdr) Sample.fs
                                Sample.never_fails ["makofind"; "/a"]
                                world0))))
    by (vm_compute; left; reflexivity).
  split; [exact H|].
  exact (proj2 (proj2 (proj2
           (manifest_physical_and_mount_confined (hdr := Sample.hdr)
              Sample.fs Sample.never_fails)))
           ["makofind"; "/a"] world0 _ H).
Defined.

(** * Further properties of the program *)

(** ** The visitor's return value *)

(** The visitor returns 0 or 1, and it returns 1 in exactly two cases: the
    record of a file could not be written, or the object type is none of
    the five the [switch] knows. *)
Theorem visitor_aborts_iff {hdr : ftw_h} (stdout_fails : nat -> bool)
  (path : string) (st : stat) (objtype : Z) (w : world) :
  (fst (nftw_cb stdout_fails path st objtype w) = 0
   \/ fst (nftw_cb stdout_fails path st objtype w) = 1)
  /\ (fst (nftw_cb stdout_fails path st objtype w) = 1
      <-> (objtype = FTW_F /\ stdout_fails (printf_calls w) = true)
          \/ ~ In objtype [FTW_F; FTW_D; FTW_SL; FTW_DNR; FTW_NS]).
Proof.
  destruct labels_neq as (N1 & N2 & N3 & N4 & N5 & N6 & N7 & N8 & N9 & N10).
  cbn [In].
  destruct (Z.eq_dec objtype FTW_F) as [->|HF].
  { destruct (stdout_fails (printf_calls w)) eqn:E.
    - rewrite nftw_cb_file_fail by assumption. cbn [fst]. intuition.
    - rewrite nftw_cb_file_ok by assumption. cbn [fst].
      split; [auto|]. split; [discriminate|].
      intros [[_ H]|H]; [discriminate | exfalso; apply H; auto]. }
  destruct (Z.eq_dec objtype FTW_D) as [->|HD].
  { rewrite nftw_cb_dir. cbn [fst]. split; [auto|]. split; [discriminate|].
    intros [[H _]|H]; [congruence | exfalso; apply H; auto]. }
  destruct (Z.eq_dec objtype FTW_SL) as [->|HS].
  { rewrite nftw_cb_symlink. cbn [fst]. split; [auto|].
    split; [discriminate|].
    intros [[H _]|H]; [congruence | exfalso; apply H; auto]. }
  destruct (Z.eq_dec objtype FTW_DNR) as [->|HR].
  { rewrite nftw_cb_unreadable. cbn [fst]. split; [auto|].
    split; [discriminate|].
    intros [[H _]|H]; [congruence | exfalso; apply H; auto 6]. }
  destruct (Z.eq_dec objtype FTW_NS) as [->|HN].
  { rewrite nftw_cb_nostat. cbn [fst]. split; [auto|].
    split; [discriminate|].
    intros [[H _]|H]; [congruence | exfalso; apply H; auto 6]. }
  rewrite nftw_cb_default by assumption. cbn [fst]. split; [auto|].
  split; [|reflexivity]. intros _. right. intuition congruence.
Qed.

(** ** The physical size *)

(** For every block count in the range of [blkcnt_t], neither the sum
    [(st_blocks / 2) + (st_blocks % 2)] nor its parts leave that range:
    the computation has no signed overflow. *)
Theorem physical_size_no_overflow (st : stat) :
  - 2 ^ 63 <= st_blocks st < 2 ^ 63 ->
  - 2 ^ 63 <= Z.quot (st_blocks st) 2 < 2 ^ 63
  /\ - 2 ^ 63 <= Z.rem (st_blocks st) 2 < 2 ^ 63
  /\ - 2 ^ 63 <= logical st < 2 ^ 63.
Proof.
  intros H. unfold logical.
  pose proof (Z.quot_rem' (st_blocks st) 2) as E.
  pose proof (Z.rem_bound_abs (st_blocks st) 2 ltac:(lia)). lia.
Qed.

Lemma physical_size_no_overflow_witness :
  - 2 ^ 63 <= st_blocks Sample.st_obj < 2 ^ 63
  /\ - 2 ^ 63 <= logical Sample.st_obj < 2 ^ 63.
Proof.
  assert (H : - 2 ^ 63 <= st_blocks Sample.st_obj < 2 ^ 63) by (cbn; lia).
  split; [exact H|].
  exact (proj2 (proj2 (physical_size_no_overflow Sample.st_obj H))).
Defined.

Lemma logical_double (st : stat) :
  2 * logical st = st_blocks st + Z.rem (st_blocks st) 2.
Proof.
  unfold logical. pose proof (Z.quot_rem' (st_blocks st) 2). lia.
Qed.

Lemma rem2_cases (b : Z) :
  (0 <= b /\ (Z.rem b 2 = 0 \/ Z.rem b 2 = 1))
  \/ (b < 0 /\ (Z.rem b 2 = 0 \/ Z.rem b 2 = -1)).
Proof.
  destruct (Z_le_gt_dec 0 b) as [Hp|Hn].
  - left. pose proof (Z.rem_bound_pos b 2 Hp ltac:(lia)). lia.
  - right. pose proof (Z.rem_bound_abs b 2 ltac:(lia)).
    pose proof (Z.rem_nonpos b 2 ltac:(lia) ltac:(lia)). lia.
Qed.

(** The physical size is 0 only for a file without blocks, it has the sign
    of the block count, and it grows with the block count: a file with
    more blocks never shows a smaller physical size. *)
Theorem physical_size_zero_and_monotone (st1 st2 : stat) :
  (logical st1 = 0 <-> st_blocks st1 = 0)
  /\ (0 < st_blocks st1 -> 0 < logical st1)
  /\ (st_blocks st1 <= st_blocks st2 -> logical st1 <= logical st2).
Proof.
  pose proof (logical_double st1) as D1. pose proof (logical_double st2) as D2.
  pose proof (Z.quot_rem' (st_blocks st1) 2) as Q1.
  pose proof (Z.quot_rem' (st_blocks st2) 2) as Q2.
  destruct (rem2_cases (st_blocks st1)) as [[? [?|?]]|[? [?|?]]];
    destruct (rem2_cases (st_blocks st2)) as [[? [?|?]]|[? [?|?]]];
    repeat split; intros; lia.
Qed.

Lemma physical_size_zero_and_monotone_witness :
  st_blocks Sample.st_dir <= st_blocks Sample.st_obj
  /\ logical Sample.st_dir <= logical Sample.st_obj.
Proof.
  assert (H : st_blocks Sample.st_dir <= st_blocks Sample.st_obj)
    by (cbn; lia).
  split; [exact H|].
  exact (proj2 (proj2 (physical_size_zero_and_monotone Sample.st_dir
                         Sample.st_obj)) H).
Defined.

(** ** Exit status and diagnostics *)

Section RunFacts.

Context {hdr : ftw_h}.

Variable fs : string -> option fsnode.
Variable stdout_fails : nat -> bool.

Abbreviation run_flags := (Z.lor FTW_PHYS FTW_MOUNT).

Lemma reported_weaken w r w' : reported w r w' -> reported w 0 w'.
Proof.
  intros [_ (ds & E & H)]. split; [auto|]. exists ds. split; [exact E|].
  destruct H as [(H1 & H2 & _)|H]; [left | right; exact H].
  repeat split; [exact H1 | exact H2 | discriminate].
Qed.

(** The loop as a whole: nothing reported and the flag untouched, or
    something reported and the flag set. *)
Lemma main_loop_reported roots :
  forall w, reported w 0 (main_loop fs stdout_fails run_flags roots w).
Proof.
  induction roots as [|root rest IH]; intros w; [apply reported_skip|].
  rewrite main_loop_cons. cbv zeta.
  pose proof (reported_nftw fs stdout_fails root MAX_DESCRIPTORS run_flags w)
    as R.
  cbv zeta in R. apply reported_weaken in R.
  destruct (fst _ =? 1); [exact R|].
  destruct (fst _ =? -1).
  - eapply reported_seq; [exact R|].
    eapply reported_seq; [|apply IH].
    eapply reported_one; [auto | reflexivity | reflexivity].
  - eapply reported_seq; [exact R | apply IH].
Qed.

Lemma snoc_neq {A : Type} (l : list A) (d : A) : (l ++ [d])%list <> l.
Proof.
  intros H. apply (f_equal (@List.length A)) in H.
  rewrite length_app in H. cbn in H. lia.
Qed.

Lemma app_neq {A : Type} (l ds : list A) : ds <> [] -> (l ++ ds)%list <> l.
Proof.
  intros Hd H. apply Hd. rewrite <- (app_nil_r l) in H at 2.
  now apply app_inv_head in H.
Qed.

End RunFacts.

(** Started with the flag 0 or 1, [main] exits with status 0 or 1, whatever
    the arguments, the trees and the output channel do. *)
Theorem exit_status_zero_or_one {hdr : ftw_h} (fs : string -> option fsnode)
  (stdout_fails : nat -> bool) (argv : list string) (w : world) :
  error w = 0 \/ error w = 1 ->
  fst (main fs stdout_fails argv w) = 0
  \/ fst (main fs stdout_fails argv w) = 1.
Proof.
  intros H0. unfold main.
  destruct (Z.of_nat (List.length argv) <? 2); cbn [fst]; [auto|].
  destruct (main_loop_flag fs stdout_fails (tl argv) w) as [H|H];
    rewrite H; auto.
Qed.

Lemma exit_status_zero_or_one_witness :
  (error world0 = 0 \/ error world0 = 1)
  /\ (fst (main (hdr := Sample.hdr) Sample.fs Sample.always_fails
             ["makofind"; "/a"; "/r1"] world0) = 0
      \/ fst (main (hdr := Sample.hdr) Sample.fs Sample.always_fails
                ["makofind"; "/a"; "/r1"] world0) = 1).
Proof.
  assert (H : error world0 = 0 \/ error world0 = 1) by (left; reflexivity).
  split; [exact H|].
  exact (exit_status_zero_or_one (hdr := Sample.hdr) Sample.fs
           Sample.always_fails ["makofind"; "/a"; "/r1"] world0 H).
Defined.

(** Started with the flag clear, [main] exits with a non-zero status
    exactly when it has written something to standard error: a failing
    run is never silent, and a run that reports anything fails. *)
Theorem nonzero_exit_iff_diagnostic {hdr : ftw_h}
  (fs : string -> option fsnode) (stdout_fails : nat -> bool)
  (argv : list string) (w : world) :
  error w = 0 ->
  (fst (main fs stdout_fails argv w) <> 0
   <-> stderr (snd (main fs stdout_fails argv w)) <> stderr w).
Proof.
  intros H0. unfold main.
  destruct (Z.of_nat (List.length argv) <? 2); cbn [fst snd].
  - unfold fprintf_stderr, put_stderr. cbn [stderr].
    split; [intros _; apply snoc_neq | intros _; discriminate].
  - destruct (main_loop_reported fs stdout_fails (tl argv) w)
      as [_ (ds & E & [(-> & He & _)|(Hd & He)])].
    + rewrite app_nil_r in E. rewrite E, He, H0. tauto.
    + rewrite E, He. split; [intros _; now apply app_neq | discriminate].
Qed.

Lemma nonzero_exit_iff_diagnostic_witness :
  error world0 = 0
  /\ (fst (main (hdr := Sample.hdr) Sample.fs Sample.never_fails
             ["makofind"; "/a"] world0) <> 0
      <-> stderr (snd (main (hdr := Sample.hdr) Sample.fs Sample.never_fails
                         ["makofind"; "/a"] world0)) <> stderr world0).
Proof.
  assert (H : error world0 = 0) by reflexivity.
  split; [exact H|].
  exact (nonzero_exit_iff_diagnostic (hdr := Sample.hdr) Sample.fs
           Sample.never_fails ["makofind"; "/a"] world0 H).
Defined.

(** ** Calls of [printf] and records written *)

Section Accounting.

Context {hdr : ftw_h}.

Variable fs : string -> option fsnode.
Variable stdout_fails : nat -> bool.

Abbreviation calls w := (printf_calls w).
Abbreviation recs w := (List.length (stdout w)).

(** Every call of [printf] writes a record, but for at most one call, and
    that only when the value returned is 1. *)
Lemma walk_accounted descriptors phys mount dev n level path w :
  let r := walk (nftw_cb stdout_fails) descriptors phys mount dev level path
             n w in
  (fst r <> 1 /\ (calls (snd r) + recs w = calls w + recs (snd r))%nat)
  \/ (fst r = 1
      /\ ((calls (snd r) + recs w = calls w + recs (snd r))%nat
          \/ (calls (snd r) + recs w = S (calls w + recs (snd r)))%nat)).
Proof.
  cbv zeta.
  apply (walk_invariant (nftw_cb stdout_fails) descriptors phys mount dev
           (fun w r w' =>
              (r <> 1 /\ (calls w' + recs w = calls w + recs w')%nat)
              \/ (r = 1
                  /\ ((calls w' + recs w = calls w + recs w')%nat
                      \/ (calls w' + recs w = S (calls w + recs w'))%nat)))).
  - intros w0. left. split; [discriminate | reflexivity].
  - intros w0. left. split; [discriminate | reflexivity].
  - intros p st ty w0.
    destruct (Z.eq_dec ty FTW_F) as [->|HF].
    { destruct (stdout_fails (printf_calls w0)) eqn:E.
      - rewrite nftw_cb_file_fail by assumption. cbn [fst snd stdout
          printf_calls]. right. split; [reflexivity|]. right. lia.
      - rewrite nftw_cb_file_ok by assumption. cbn [fst snd stdout
          printf_calls]. left. split; [discriminate|].
        rewrite length_app. cbn [List.length]. lia. }
    destruct (Z.eq_dec ty FTW_D) as [->|HD].
    { rewrite nftw_cb_dir. left. split; [discriminate | reflexivity]. }
    destruct (Z.eq_dec ty FTW_SL) as [->|HS].
    { rewrite nftw_cb_symlink. left. split; [discriminate | reflexivity]. }
    destruct (Z.eq_dec ty FTW_DNR) as [->|HR].
    { rewrite nftw_cb_unreadable. left. split; [discriminate | reflexivity]. }
    destruct (Z.eq_dec ty FTW_NS) as [->|HN].
    { rewrite nftw_cb_nostat. left. split; [discriminate | reflexivity]. }
    rewrite nftw_cb_default by assumption. right.
    split; [reflexivity|]. left. reflexivity.
  - intros w0 w1 r w2 [[_ H1]|[H1 _]] H2; [|discriminate].
    destruct H2 as [[Hr H2]|[Hr [H2|H2]]]; [left | right | right];
      (split; [exact Hr|]); try (left; lia); try (right; lia); lia.
Qed.

Lemma nftw_accounted root w :
  let r := nftw fs root (nftw_cb stdout_fails) MAX_DESCRIPTORS
             (Z.lor FTW_PHYS FTW_MOUNT) w in
  (fst r <> 1 /\ (calls (snd r) + recs w = calls w + recs (snd r))%nat)
  \/ (fst r = 1
      /\ ((calls (snd r) + recs w = calls w + recs (snd r))%nat
          \/ (calls (snd r) + recs w = S (calls w + recs (snd r)))%nat)).
Proof.
  cbv zeta. unfold nftw.
  destruct (fs root) as [n|];
    [|left; split; [discriminate | reflexivity]].
  destruct (root_dev _ n) as [dev|];
    [|left; split; [discriminate | reflexivity]].
  apply walk_accounted.
Qed.

Lemma main_loop_accounted roots :
  forall w,
    let w' := main_loop fs stdout_fails (Z.lor FTW_PHYS FTW_MOUNT) roots w in
    (calls w' + recs w = calls w + recs w')%nat
    \/ ((calls w' + recs w = S (calls w + recs w'))%nat /\ error w' = 1).
Proof.
  induction roots as [|root rest IH]; intros w; cbv zeta; [now left|].
  rewrite main_loop_cons. cbv zeta.
  pose proof (nftw_accounted root w) as A. cbv zeta in A.
  pose proof (reported_nftw fs stdout_fails root MAX_DESCRIPTORS
                (Z.lor FTW_PHYS FTW_MOUNT) w) as R.
  cbv zeta in R.
  destruct (nftw fs root (nftw_cb stdout_fails) MAX_DESCRIPTORS
              (Z.lor FTW_PHYS FTW_MOUNT) w) as [ret w1].
  cbn [fst snd] in *.
  destruct (ret =? 1) eqn:E1.
  { apply Z.eqb_eq in E1. subst ret. apply reported_abort in R.
    destruct A as [[A _]|[_ [A|A]]]; [congruence | now left | right; auto]. }
  apply Z.eqb_neq in E1.
  destruct A as [[_ A]|[A _]]; [|contradiction].
  destruct (ret =? -1).
  - match goal with |- context [main_loop _ _ _ rest ?w2] =>
      specialize (IH w2); cbv zeta in IH; cbn [stdout printf_calls] in IH;
      destruct IH as [IH|[IH He]]; [left | right; split; [|exact He]]; lia
    end.
  - specialize (IH w1). cbv zeta in IH.
    destruct IH as [IH|[IH He]]; [left | right; split; [|exact He]]; lia.
Qed.

End Accounting.

(** In a whole run, every call of [printf] but at most one writes a
    record: the number of calls is the number of records written, or one
    more, and then the exit status is 1. *)
Theorem at_most_one_lost_record {hdr : ftw_h} (fs : string -> option fsnode)
  (stdout_fails : nat -> bool) (argv : list string) (w : world) :
  (printf_calls (snd (main fs stdout_fails argv w))
   + List.length (stdout w)
   = printf_calls w
     + List.length (stdout (snd (main fs stdout_fails argv w))))%nat
  \/ ((printf_calls (snd (main fs stdout_fails argv w))
       + List.length (stdout w)
       = S (printf_calls w
            + List.length (stdout (snd (main fs stdout_fails argv w)))))%nat
      /\ fst (main fs stdout_fails argv w) = 1).
Proof.
  unfold main.
  destruct (Z.of_nat (List.length argv) <? 2); cbn [fst snd].
  - left. reflexivity.
  - exact (main_loop_accounted fs stdout_fails (tl argv) w).
Qed.

(** The run over [/two] whose first write fails: one call more than
    records, status 1, and the second file is never tried. *)
Example lost_record_sample :
  main (hdr := Sample.hdr) Sample.fs Sample.fails_first ["makofind"; "/two"]
    world0
  = (1, mkWorld [] 1 [Warnx "Failed to print information for: /two/f"] 1).
Proof. vm_compute. reflexivity. Qed.

(** ** The manifest of a walk that returns 0 *)

Section Exactness.

Context {hdr : ftw_h}.

Variable fs : string -> option fsnode.
Variable stdout_fails : nat -> bool.

Abbreviation visit0 := (nftw_cb stdout_fails).
Abbreviation rec_of :=
  (fun f : string * stat =>
     Fmt.format manifest_fmt (manifest_args (fst f) (snd f))).

Lemma files_of_Dir dev path st readable ents :
  files_of dev path (Dir st readable ents)
  = if (st_dev st =? dev) && readable then files_of_list dev path ents
    else [].
Proof.
  cbn [files_of]. destruct ((st_dev st =? dev) && readable); [|reflexivity].
  induction ents as [|[name c] es IH]; [reflexivity|].
  cbn [files_of_list]. now rewrite IH.
Qed.

Lemma crosses_eqb dev st : crosses true dev st = negb (st_dev st =? dev).
Proof. reflexivity. Qed.

(** Away from the file arm, the visitor leaves standard output alone. *)
Lemma visit_other_stdout path st ty w :
  ty <> FTW_F -> stdout (snd (visit0 path st ty w)) = stdout w.
Proof.
  intros HF.
  destruct (Z.eq_dec ty FTW_D) as [->|HD]; [now rewrite nftw_cb_dir|].
  destruct (Z.eq_dec ty FTW_SL) as [->|HS]; [now rewrite nftw_cb_symlink|].
  destruct (Z.eq_dec ty FTW_DNR) as [->|HR];
    [now rewrite nftw_cb_unreadable|].
  destruct (Z.eq_dec ty FTW_NS) as [->|HN]; [now rewrite nftw_cb_nostat|].
  now rewrite nftw_cb_default.
Qed.

Lemma visit_file_stdout path st w :
  fst (visit0 path st FTW_F w) = 0 ->
  stdout (snd (visit0 path st FTW_F w))
  = (stdout w ++ [rec_of (path, st)])%list.
Proof.
  destruct (stdout_fails (printf_calls w)) eqn:E.
  - rewrite nftw_cb_file_fail by assumption. discriminate.
  - rewrite nftw_cb_file_ok by assumption. reflexivity.
Qed.

Lemma walk_exact descriptors dev n :
  forall level path w,
    fst (walk visit0 descriptors true true dev level path n w) = 0 ->
    stdout (snd (walk visit0 descriptors true true dev level path n w))
    = (stdout w ++ map rec_of (files_of dev path n))%list.
Proof.
  induction n as [st|st readable ents IH|st t IH|st| |st code]
    using fsnode_induction; intros level path w.
  - cbn [walk files_of]. rewrite crosses_eqb.
    destruct (st_dev st =? dev); cbn [negb map].
    + apply visit_file_stdout.
    + intros _. now rewrite app_nil_r.
  - rewrite walk_Dir, files_of_Dir, crosses_eqb.
    destruct (st_dev st =? dev); cbn [negb andb map];
      [|intros _; now rewrite app_nil_r].
    destruct readable; cbn [negb map].
    2:{ intros _. rewrite nftw_cb_unreadable. cbn [snd stdout].
        now rewrite app_nil_r. }
    destruct (descriptors <=? Z.of_nat level); [discriminate|].
    rewrite nftw_cb_dir. cbn [Z.eqb].
    revert w. induction IH as [|[name c] es Hc _ IHes]; intros w.
    + intros _. cbn [walk_list files_of_list map snd]. now rewrite app_nil_r.
    + cbn [walk_list files_of_list]. cbn [snd] in Hc.
      specialize (Hc (S level) (path ++ "/" ++ name) w).
      destruct (walk visit0 descriptors true true dev (S level)
                  (path ++ "/" ++ name) c w) as [r w1].
      cbn [fst snd] in Hc.
      destruct (r =? 0) eqn:E.
      * apply Z.eqb_eq in E. subst r. intros H.
        rewrite (IHes w1 H), (Hc eq_refl), map_app, app_assoc. reflexivity.
      * cbn [fst]. intros H. subst r. discriminate.
  - cbn [walk files_of map]. intros _.
    destruct (crosses true dev st); [|rewrite nftw_cb_symlink];
      cbn [snd]; now rewrite app_nil_r.
  - cbn [walk files_of map]. intros _.
    destruct (crosses true dev st); [|rewrite nftw_cb_symlink];
      cbn [snd]; now rewrite app_nil_r.
  - cbn [walk files_of map]. intros _. rewrite nftw_cb_nostat.
    cbn [snd stdout]. now rewrite app_nil_r.
  - cbn [walk files_of]. rewrite crosses_eqb.
    destruct (st_dev st =? dev); cbn [negb andb map];
      [|intros _; now rewrite app_nil_r].
    destruct (Z.eq_dec code FTW_F) as [->|HF].
    + rewrite Z.eqb_refl. cbn [map]. apply visit_file_stdout.
    + replace (code =? FTW_F) with false by (symmetry; now apply Z.eqb_neq).
      intros _. cbn [map]. rewrite visit_other_stdout by assumption.
      now rewrite app_nil_r.
Qed.

Lemma In_files_of_list dev path es f :
  In f (files_of_list dev path es)
  <-> exists name c,
        In (name, c) es /\ In f (files_of dev (path ++ "/" ++ name) c).
Proof.
  induction es as [|[name c] es IH]; cbn [files_of_list In].
  - split; [tauto | intros (? & ? & [] & _)].
  - rewrite in_app_iff, IH. split.
    + intros [H|(n0 & c0 & Hi & H)]; [exists name, c | exists n0, c0]; auto.
    + intros (n0 & c0 & [E|Hi] & H).
      * injection E as <- <-. auto.
      * right. exists n0, c0. auto.
Qed.

(** [files_of] lists exactly the physically reachable files. *)
Lemma files_of_reach dev n :
  forall path q s,
    In (q, s) (files_of dev path n) <-> reach dev path n q s.
Proof.
  induction n as [st|st readable ents IH|st t IH|st| |st code]
    using fsnode_induction; intros path q s.
  - cbn [files_of]. destruct (st_dev st =? dev) eqn:E.
    + apply Z.eqb_eq in E. cbn [In]. split.
      * intros [H|[]]. injection H as <- <-. now apply reach_file.
      * intros H. inversion H; subst. auto.
    + apply Z.eqb_neq in E. cbn [In]. split; [tauto|].
      intros H. inversion H; subst. contradiction.
  - rewrite files_of_Dir. destruct (st_dev st =? dev) eqn:E; cbn [andb].
    + apply Z.eqb_eq in E. destruct readable.
      * rewrite In_files_of_list. split.
        -- intros (name & c & Hi & H). eapply reach_entry; eauto.
           rewrite Forall_forall in IH. apply (IH (name, c) Hi). exact H.
        -- intros H. inversion H; subst. exists name, c. split; [assumption|].
           rewrite Forall_forall in IH. now apply (IH (name, c)).
      * cbn [In]. split; [tauto | intros H; inversion H].
    + apply Z.eqb_neq in E. cbn [In]. split; [tauto|].
      intros H. inversion H; subst. contradiction.
  - cbn [files_of In]. split; [tauto | intros H; inversion H].
  - cbn [files_of In]. split; [tauto | intros H; inversion H].
  - cbn [files_of In]. split; [tauto | intros H; inversion H].
  - cbn [files_of]. destruct (st_dev st =? dev) eqn:E; cbn [andb].
    + apply Z.eqb_eq in E. destruct (code =? FTW_F) eqn:EF.
      * apply Z.eqb_eq in EF. subst code. cbn [In]. split.
        -- intros [H|[]]. injection H as <- <-. now apply reach_as_file.
        -- intros H. inversion H; subst. auto.
      * apply Z.eqb_neq in EF. cbn [In]. split; [tauto|].
        intros H. inversion H; subst. contradiction.
    + apply Z.eqb_neq in E. cbn [In andb]. split; [tauto|].
      intros H. inversion H; subst. contradiction.
Qed.

Lemma nftw_exact root w :
  fst (nftw fs root visit0 MAX_DESCRIPTORS (Z.lor FTW_PHYS FTW_MOUNT) w) = 0 ->
  stdout (snd (nftw fs root visit0 MAX_DESCRIPTORS
                 (Z.lor FTW_PHYS FTW_MOUNT) w))
  = (stdout w ++ manifest_of_root fs root)%list.
Proof.
  unfold nftw, manifest_of_root. rewrite flags_phys, flags_mount.
  destruct (fs root) as [n|]; [|discriminate].
  destruct (root_dev true n) as [dev|]; [|discriminate].
  apply walk_exact.
Qed.

Lemma main_loop_exact roots :
  forall w,
    roots_clean fs stdout_fails (Z.lor FTW_PHYS FTW_MOUNT) roots w ->
    stdout (main_loop fs stdout_fails (Z.lor FTW_PHYS FTW_MOUNT) roots w)
    = (stdout w ++ flat_map (manifest_of_root fs) roots)%list.
Proof.
  induction roots as [|root rest IH]; intros w.
  - intros _. cbn [main_loop flat_map]. now rewrite app_nil_r.
  - cbn [roots_clean]. intros (H0 & _ & Hc).
    rewrite main_loop_cons. cbv zeta. rewrite H0. cbn [Z.eqb].
    rewrite (IH _ Hc), (nftw_exact root w H0). cbn [flat_map].
    now rewrite app_assoc.
Qed.

End Exactness.

(** When nftw returns 0 on a root, the records it has added to the
    manifest are exactly the records of the files of the root's tree, each
    once, in the order of the walk; in particular the record of every
    physically reachable file is there. *)
Theorem completed_walk_manifest {hdr : ftw_h} (fs : string -> option fsnode)
  (stdout_fails : nat -> bool) (root : string) (w : world) :
  fst (nftw fs root (nftw_cb stdout_fails) MAX_DESCRIPTORS
         (Z.lor FTW_PHYS FTW_MOUNT) w) = 0 ->
  stdout (snd (nftw fs root (nftw_cb stdout_fails) MAX_DESCRIPTORS
                 (Z.lor FTW_PHYS FTW_MOUNT) w))
  = (stdout w ++ manifest_of_root fs root)%list
  /\ forall n dev q s,
       fs root = Some n -> root_dev true n = Some dev ->
       reach dev root n q s ->
       In (Fmt.format manifest_fmt (manifest_args q s))
          (stdout (snd (nftw fs root (nftw_cb stdout_fails) MAX_DESCRIPTORS
                          (Z.lor FTW_PHYS FTW_MOUNT) w))).
Proof.
  intros H0. pose proof (nftw_exact fs stdout_fails root w H0) as E.
  split; [exact E|].
  intros n dev q s Hn Hd Hr. rewrite E. apply in_or_app. right.
  unfold manifest_of_root. rewrite Hn, Hd.
  apply (files_of_reach fs) in Hr.
  apply (in_map (fun f => Fmt.format manifest_fmt
                            (manifest_args (fst f) (snd f))) _ (q, s)) in Hr.
  exact Hr.
Qed.

Lemma completed_walk_manifest_witness :
  fst (nftw (hdr := Sample.hdr) Sample.fs "/a"
         (nftw_cb (hdr := Sample.hdr) Sample.never_fails) MAX_DESCRIPTORS
         (Z.lor (@FTW_PHYS Sample.hdr) (@FTW_MOUNT Sample.hdr)) world0) = 0
  /\ stdout (snd (nftw (hdr := Sample.hdr) Sample.fs "/a"
                    (nftw_cb (hdr := Sample.hdr) Sample.never_fails)
                    MAX_DESCRIPTORS
                    (Z.lor (@FTW_PHYS Sample.hdr) (@FTW_MOUNT Sample.hdr))
                    world0))
     = (stdout world0 ++ manifest_of_root (hdr := Sample.hdr) Sample.fs "/a")%list.
Proof.
  assert (H : fst (nftw (hdr := Sample.hdr) Sample.fs "/a"
                     (nftw_cb (hdr := Sample.hdr) Sample.never_fails)
                     MAX_DESCRIPTORS
                     (Z.lor (@FTW_PHYS Sample.hdr) (@FTW_MOUNT Sample.hdr))
                     world0) = 0)
    by (vm_compute; reflexivity).
  split; [exact H|].
  exact (proj1 (completed_walk_manifest (hdr := Sample.hdr) Sample.fs
                  Sample.never_fails "/a" world0 H)).
Defined.

(** A run with at least one root that starts with the flag clear and ends
    with status 0 has added to the manifest exactly the records of the
    files of its roots, root after root, a root given twice twice. *)
Theorem successful_run_manifest {hdr : ftw_h} (fs : string -> option fsnode)
  (stdout_fails : nat -> bool) (argv : list string) (w : world) :
  (2 <= List.length argv)%nat -> error w = 0 ->
  fst (main fs stdout_fails argv w) = 0 ->
  stdout (snd (main fs stdout_fails argv w))
  = (stdout w ++ flat_map (manifest_of_root fs) (tl argv))%list.
Proof.
  intros Hlen H0. unfold main.
  replace (Z.of_nat (List.length argv) <? 2) with false
    by (symmetry; apply Z.ltb_ge; lia).
  cbn [fst snd]. intros He.
  apply main_loop_exact. now apply main_loop_clean.
Qed.

Lemma successful_run_manifest_witness :
  (2 <= List.length ["makofind"; "/r2"; "/two"; "/r2"])%nat
  /\ error world0 = 0
  /\ fst (main (hdr := Sample.hdr) Sample.fs Sample.never_fails
            ["makofind"; "/r2"; "/two"; "/r2"] world0) = 0
  /\ stdout (snd (main (hdr := Sample.hdr) Sample.fs Sample.never_fails
                    ["makofind"; "/r2"; "/two"; "/r2"] world0))
     = (stdout world0
          ++ flat_map (manifest_of_root (hdr := Sample.hdr) Sample.fs)
               (tl ["makofind"; "/r2"; "/two"; "/r2"]))%list.
Proof.
  assert (H1 : (2 <= List.length ["makofind"; "/r2"; "/two"; "/r2"])%nat)
    by (cbn; lia).
  assert (H2 : error world0 = 0) by reflexivity.
  assert (H3 : fst (main (hdr := Sample.hdr) Sample.fs Sample.never_fails
                      ["makofind"; "/r2"; "/two"; "/r2"] world0) = 0)
    by (vm_compute; reflexivity).
  split; [exact H1|]. split; [exact H2|]. split; [exact H3|].
  exact (successful_run_manifest (hdr := Sample.hdr) Sample.fs
           Sample.never_fails ["makofind"; "/r2"; "/two"; "/r2"] world0
           H1 H2 H3).
Defined.

(** ** The fields of a record *)

Module SepFacts.

Lemma free_append (a b : string) :
  Sep.free (a ++ b) = Sep.free a && Sep.free b.
Proof.
  induction a as [|c a IH]; [reflexivity|].
  cbn [append Sep.free]. rewrite IH. now rewrite andb_assoc.
Qed.

Lemma digit_char_plain (d : Z) :
  0 <= d < 10 -> Sep.is_sep (Fmt.digit_char d) = false.
Proof.
  intros H.
  assert (C : d = 0 \/ d = 1 \/ d = 2 \/ d = 3 \/ d = 4 \/ d = 5 \/ d = 6
              \/ d = 7 \/ d = 8 \/ d = 9) by lia.
  repeat (destruct C as [->|C]; [reflexivity|]). subst d. reflexivity.
Qed.

Lemma free_digits (fuel : nat) :
  forall n, Sep.free (Fmt.digits fuel n) = true.
Proof.
  induction fuel as [|f IH]; intros n; [reflexivity|].
  cbn [Fmt.digits]. rewrite free_append. cbn [Sep.free].
  rewrite digit_char_plain by (apply Z.mod_pos_bound; lia).
  cbn [negb andb]. rewrite andb_true_r.
  destruct (n / 10 =? 0); [reflexivity | apply IH].
Qed.

Lemma free_repeat_char (c : ascii) (k : nat) :
  Sep.is_sep c = false -> Sep.free (Str.repeat_char c k) = true.
Proof.
  intros H. induction k as [|k IH]; [reflexivity|].
  cbn [Str.repeat_char Sep.free]. now rewrite H, IH.
Qed.

(** An integer conversion never produces a tab or a newline. *)
Lemma free_render_int (zero : bool) (width : nat) (n : Z) :
  Sep.free (Fmt.render_int zero width n) = true.
Proof.
  unfold Fmt.render_int.
  assert (Hs : Sep.free (if n <? 0 then "-" else "") = true)
    by (destruct (n <? 0); reflexivity).
  destruct zero; rewrite !free_append, Hs; unfold Fmt.dec_abs;
    rewrite free_digits, free_repeat_char by reflexivity; reflexivity.
Qed.

End SepFacts.

Lemma format_manifest_raw (path : string) (size sec nsec kb : Z) :
  Fmt.format manifest_fmt
    [Fmt.AStr path; Fmt.AInt size; Fmt.AInt sec; Fmt.AInt nsec; Fmt.AInt kb]
  = path ++ Str.TAB ++ Fmt.render_int false 0 size ++ Str.TAB
      ++ (Fmt.render_int false 0 sec ++ "." ++ Fmt.render_int true 9 nsec
            ++ "0")
      ++ Str.TAB ++ Fmt.render_int false 0 kb ++ Str.NL.
Proof.
  unfold Fmt.format.
  let f := eval vm_compute in manifest_fmt in change manifest_fmt with f.
  match goal with
  | |- ?l = _ =>
      let l' := eval lazy -[Fmt.render_int Fmt.render_str append] in l in
      change l with l'
  end.
  rewrite render_str_0. unfold Str.TAB, Str.NL.
  rewrite !StrFacts.append_assoc. cbn [append]. reflexivity.
Qed.

(** Whatever the values in the stat buffer, the record is the path
    followed by three fields, each introduced by a tab, and a final
    newline, and none of the three fields holds a tab or a newline: a
    record splits into its fields from the right even when the path itself
    holds a tab. *)
Theorem record_fields_have_no_separator {hdr : ftw_h} (path : string)
  (st : stat) :
  Fmt.format manifest_fmt (manifest_args path st)
  = path ++ Str.TAB ++ Fmt.render_int false 0 (st_size st) ++ Str.TAB
      ++ (Fmt.render_int false 0 (tv_sec (st_mtim st)) ++ "."
            ++ Fmt.render_int true 9 (tv_nsec (st_mtim st)) ++ "0")
      ++ Str.TAB ++ Fmt.render_int false 0 (logical st) ++ Str.NL
  /\ Sep.free (Fmt.render_int false 0 (st_size st)) = true
  /\ Sep.free (Fmt.render_int false 0 (tv_sec (st_mtim st)) ++ "."
                 ++ Fmt.render_int true 9 (tv_nsec (st_mtim st)) ++ "0")
     = true
  /\ Sep.free (Fmt.render_int false 0 (logical st)) = true.
Proof.
  split; [apply format_manifest_raw|].
  rewrite !SepFacts.free_append, !SepFacts.free_render_int. repeat split.
Qed.

(** ** Objects that leave no trace *)

(** The visitor returns 0 and leaves the whole state as it was exactly for
    directories and symbolic links: every other object is counted as a
    call of [printf] or reported. *)
Theorem visitor_ignores_iff {hdr : ftw_h} (stdout_fails : nat -> bool)
  (path : string) (st : stat) (objtype : Z) (w : world) :
  nftw_cb stdout_fails path st objtype w = (0, w)
  <-> objtype = FTW_D \/ objtype = FTW_SL.
Proof.
  split.
  - intros H.
    destruct (Z.eq_dec objtype FTW_D) as [HD|HD]; [auto|].
    destruct (Z.eq_dec objtype FTW_SL) as [HS|HS]; [auto|].
    exfalso.
    destruct (Z.eq_dec objtype FTW_F) as [->|HF].
    { destruct (stdout_fails (printf_calls w)) eqn:E.
      - rewrite nftw_cb_file_fail in H by assumption. discriminate.
      - rewrite nftw_cb_file_ok in H by assumption.
        apply (f_equal (fun r => printf_calls (snd r))) in H.
        cbn [snd printf_calls] in H. lia. }
    destruct (Z.eq_dec objtype FTW_DNR) as [->|HR].
    { rewrite nftw_cb_unreadable in H.
      apply (f_equal (fun r => stderr (snd r))) in H.
      cbn [snd stderr] in H. now apply snoc_neq in H. }
    destruct (Z.eq_dec objtype FTW_NS) as [->|HN].
    { rewrite nftw_cb_nostat in H.
      apply (f_equal (fun r => stderr (snd r))) in H.
      cbn [snd stderr] in H. now apply snoc_neq in H. }
    rewrite nftw_cb_default in H by assumption. discriminate.
  - intros [->| ->]; [apply nftw_cb_dir | apply nftw_cb_symlink].
Qed.

(** ** The manifest of a walk that stops early *)

Section Prefix.

Context {hdr : ftw_h}.

Variable fs : string -> option fsnode.
Variable stdout_fails : nat -> bool.

Abbreviation visit1 := (nftw_cb stdout_fails).
Abbreviation rec1 :=
  (fun f : string * stat =>
     Fmt.format manifest_fmt (manifest_args (fst f) (snd f))).

Lemma visit_file_prefix path st w :
  exists done rest,
    [(path, st)] = (done ++ rest)%list
    /\ stdout (snd (visit1 path st FTW_F w))
       = (stdout w ++ map rec1 done)%list
    /\ (fst (visit1 path st FTW_F w) = 0 -> rest = []).
Proof.
  destruct (stdout_fails (printf_calls w)) eqn:E.
  - exists [], [(path, st)]. rewrite nftw_cb_file_fail by assumption.
    cbn [fst snd stdout map]. rewrite app_nil_r.
    repeat split. discriminate.
  - exists [(path, st)], []. rewrite nftw_cb_file_ok by assumption.
    cbn [fst snd stdout map]. repeat split.
Qed.

Lemma nothing_prefix (files : list (string * stat)) (r : Z) (w w' : world) :
  stdout w' = stdout w -> (r = 0 -> files = []) ->
  exists done rest,
    files = (done ++ rest)%list
    /\ stdout w' = (stdout w ++ map rec1 done)%list
    /\ (r = 0 -> rest = []).
Proof.
  intros Hs Hf. exists [], files. cbn [map app]. rewrite app_nil_r. auto.
Qed.

(** What a walk has written is the records of an initial part of the
    files of the tree, and of all of them when it returns 0. *)
Lemma walk_prefix descriptors dev n :
  forall level path w,
    exists done rest,
      files_of dev path n = (done ++ rest)%list
      /\ stdout (snd (walk visit1 descriptors true true dev level path n w))
         = (stdout w ++ map rec1 done)%list
      /\ (fst (walk visit1 descriptors true true dev level path n w) = 0 ->
          rest = []).
Proof.
  induction n as [st|st readable ents IH|st t IH|st| |st code]
    using fsnode_induction; intros level path w.
  - cbn [walk files_of]. rewrite crosses_eqb.
    destruct (st_dev st =? dev); cbn [negb].
    + apply visit_file_prefix.
    + now apply nothing_prefix.
  - rewrite walk_Dir, files_of_Dir, crosses_eqb.
    destruct (st_dev st =? dev); cbn [negb andb];
      [|now apply nothing_prefix].
    destruct readable; cbn [negb].
    2:{ apply nothing_prefix; [now rewrite nftw_cb_unreadable | auto]. }
    destruct (descriptors <=? Z.of_nat level).
    { apply nothing_prefix; [reflexivity | discriminate]. }
    rewrite nftw_cb_dir. cbn [Z.eqb].
    revert w. induction IH as [|[name c] es Hc _ IHes]; intros w.
    + cbn [walk_list files_of_list]. now apply nothing_prefix.
    + cbn [walk_list files_of_list]. cbn [snd] in Hc.
      destruct (Hc (S level) (path ++ "/" ++ name) w)
        as (d1 & r1 & E1 & S1 & Z1).
      destruct (walk visit1 descriptors true true dev (S level)
                  (path ++ "/" ++ name) c w) as [r w1].
      cbn [fst snd] in S1, Z1.
      destruct (r =? 0) eqn:E.
      * apply Z.eqb_eq in E. subst r. rewrite (Z1 eq_refl), app_nil_r in E1.
        destruct (IHes w1) as (d2 & r2 & E2 & S2 & Z2).
        exists (d1 ++ d2)%list, r2. split; [|split].
        -- now rewrite E1, E2, app_assoc.
        -- now rewrite S2, S1, map_app, app_assoc.
        -- exact Z2.
      * apply Z.eqb_neq in E.
        exists d1, (r1 ++ files_of_list dev path es)%list. split; [|split].
        -- now rewrite E1, app_assoc.
        -- exact S1.
        -- cbn [fst]. intros H. contradiction.
  - cbn [walk files_of]. apply nothing_prefix; [|auto].
    destruct (crosses true dev st); [|rewrite nftw_cb_symlink]; reflexivity.
  - cbn [walk files_of]. apply nothing_prefix; [|auto].
    destruct (crosses true dev st); [|rewrite nftw_cb_symlink]; reflexivity.
  - cbn [walk files_of]. apply nothing_prefix; [|auto].
    now rewrite nftw_cb_nostat.
  - cbn [walk files_of]. rewrite crosses_eqb.
    destruct (st_dev st =? dev); cbn [negb andb];
      [|now apply nothing_prefix].
    destruct (Z.eq_dec code FTW_F) as [->|HF].
    + rewrite Z.eqb_refl. apply visit_file_prefix.
    + replace (code =? FTW_F) with false by (symmetry; now apply Z.eqb_neq).
      apply nothing_prefix; [|auto].
      now apply visit_other_stdout.
Qed.

End Prefix.

(** Whatever nftw returns on a root, the records it has added to the
    manifest are the records of an initial part of the files of the root's
    tree, in the order of the walk: a walk that fails or is aborted leaves
    a truncated manifest, never one with a record missing in the middle. *)
Theorem stopped_walk_manifest_is_prefix {hdr : ftw_h}
  (fs : string -> option fsnode) (stdout_fails : nat -> bool)
  (root : string) (w : world) :
  exists added rest,
    manifest_of_root fs root = (added ++ rest)%list
    /\ stdout (snd (nftw fs root (nftw_cb stdout_fails) MAX_DESCRIPTORS
                      (Z.lor FTW_PHYS FTW_MOUNT) w))
       = (stdout w ++ added)%list
    /\ (fst (nftw fs root (nftw_cb stdout_fails) MAX_DESCRIPTORS
               (Z.lor FTW_PHYS FTW_MOUNT) w) = 0 -> rest = []).
Proof.
  unfold nftw, manifest_of_root. rewrite flags_phys, flags_mount.
  destruct (fs root) as [n|].
  2:{ exists [], []. cbn [snd fst app]. rewrite app_nil_r.
      repeat split. }
  destruct (root_dev true n) as [dev|].
  2:{ exists [], []. cbn [snd fst app]. rewrite app_nil_r.
      repeat split. }
  destruct (walk_prefix stdout_fails MAX_DESCRIPTORS dev n 0%nat root w)
    as (d & r & E & S & Z0).
  exists (map (fun f => Fmt.format manifest_fmt
                          (manifest_args (fst f) (snd f))) d),
         (map (fun f => Fmt.format manifest_fmt
                          (manifest_args (fst f) (snd f))) r).
  split; [|split].
  - now rewrite E, map_app.
  - exact S.
  - intros H. now rewrite (Z0 H).
Qed.

(** The tree [/r1]: the object of unknown type comes first, so the walk
    stops before the file [/r1/y] and adds nothing. *)
Example stopped_walk_sample :
  nftw (hdr := Sample.hdr) Sample.fs "/r1"
    (nftw_cb (hdr := Sample.hdr) Sample.never_fails) MAX_DESCRIPTORS
    (Z.lor (@FTW_PHYS Sample.hdr) (@FTW_MOUNT Sample.hdr)) world0
  = (1, mkWorld [] 0 [Warnx "/r1/x: unknown type (99)"] 1)
  /\ manifest_of_root (hdr := Sample.hdr) Sample.fs "/r1"
     = [Manifest.record_of "/r1/y" Sample.st_obj].
Proof. split; vm_compute; reflexivity. Qed.

(** ** Decimal fields read back *)

Module FieldFacts.

Lemma digits_value_app (a b : string) :
  forall acc,
    Field.digits_value (a ++ b) acc
    = Field.digits_value b (Field.digits_value a acc).
Proof.
  induction a as [|c a IH]; intros acc; [reflexivity|].
  cbn [append Field.digits_value]. apply IH.
Qed.

Lemma digit_cases (d : Z) :
  0 <= d < 10 ->
  d = 0 \/ d = 1 \/ d = 2 \/ d = 3 \/ d = 4 \/ d = 5 \/ d = 6 \/ d = 7
  \/ d = 8 \/ d = 9.
Proof. lia. Qed.

Lemma digit_of_digit_char (d : Z) :
  0 <= d < 10 -> Field.digit_of (Fmt.digit_char d) = d.
Proof.
  intros H. pose proof (digit_cases d H) as C.
  repeat (destruct C as [->|C]; [reflexivity|]). subst d. reflexivity.
Qed.

Lemma digit_char_not_minus (d : Z) :
  0 <= d < 10 -> Ascii.eqb (Fmt.digit_char d) "-" = false.
Proof.
  intros H. pose proof (digit_cases d H) as C.
  repeat (destruct C as [->|C]; [reflexivity|]). subst d. reflexivity.
Qed.

(** With enough fuel, the digits of a number read back as the number. *)
Lemma digits_value_digits (fuel : nat) :
  forall n,
    0 <= n < 2 ^ Z.of_nat fuel ->
    Field.digits_value (Fmt.digits fuel n) 0 = n.
Proof.
  induction fuel as [|f IH]; intros n Hn.
  - cbn in Hn. cbn [Fmt.digits Field.digits_value]. lia.
  - cbn [Fmt.digits]. rewrite digits_value_app. cbn [Field.digits_value].
    rewrite digit_of_digit_char by (apply Z.mod_pos_bound; lia).
    pose proof (Z.div_mod n 10 ltac:(lia)) as Hdm.
    destruct (n / 10 =? 0) eqn:E.
    + apply Z.eqb_eq in E. cbn [Field.digits_value]. lia.
    + rewrite IH; [lia|].
      split; [apply Z.div_pos; lia|].
      apply Z.div_lt_upper_bound; [lia|].
      replace (Z.of_nat (S f)) with (Z.of_nat f + 1) in Hn by lia.
      rewrite Z.pow_add_r in Hn; lia.
Qed.

(** The digits of a number start with a digit, not with a minus sign. *)
Lemma digits_head (fuel : nat) :
  forall n,
    exists c rest,
      Fmt.digits (S fuel) n = String c rest /\ Ascii.eqb c "-" = false.
Proof.
  induction fuel as [|f IH]; intros n.
  - cbn [Fmt.digits]. destruct (n / 10 =? 0);
      (eexists; eexists; split;
       [reflexivity | apply digit_char_not_minus, Z.mod_pos_bound; lia]).
  - change (Fmt.digits (S (S f)) n)
      with ((if n / 10 =? 0 then "" else Fmt.digits (S f) (n / 10))
              ++ String (Fmt.digit_char (n mod 10)) "").
    destruct (n / 10 =? 0).
    + eexists; eexists; split;
        [reflexivity | apply digit_char_not_minus, Z.mod_pos_bound; lia].
    + destruct (IH (n / 10)) as (c & rest & E & Hc). rewrite E.
      eexists; eexists; split; [reflexivity | exact Hc].
Qed.

(** A number printed in decimal reads back as itself. *)
Lemma value_decimal (n : Z) : Field.value (Manifest.decimal n) = n.
Proof.
  unfold Manifest.decimal. destruct (n <? 0) eqn:E.
  - apply Z.ltb_lt in E. cbn [append Field.value Ascii.eqb Bool.eqb].
    unfold Fmt.dec_abs. rewrite digits_value_digits; [lia|].
    split; [lia | apply FmtFacts.log2_fuel; lia].
  - apply Z.ltb_ge in E. cbn [append]. rewrite Z.abs_eq by lia.
    unfold Fmt.dec_abs.
    destruct (digits_head (Z.to_nat (Z.log2 n)) n) as (c & rest & Ed & Hc).
    unfold Field.value. rewrite Ed, Hc, <- Ed.
    apply digits_value_digits. split; [lia | now apply FmtFacts.log2_fuel].
Qed.

End FieldFacts.

(** ** The physical size in the record *)

(** C3.  For a regular file, whose count [blocks] of allocated 512-byte
    blocks is not negative, the physical size is [blocks/2] when [blocks]
    is even and [blocks/2 + 1] when it is odd, that is, half the count
    rounded up; and the line written is the path, the size, the time
    stamp, a tab, a last field and a newline, where the last field is that
    physical size in decimal: it holds no tab or newline and reads back as
    the number. *)
Theorem physical_size_rounds_up {hdr : ftw_h} (stdout_fails : nat -> bool)
  (path : string) (st : stat) (w : world) :
  0 <= st_blocks st ->
  stdout_fails (printf_calls w) = false ->
  logical st
  = (if Z.even (st_blocks st) then st_blocks st / 2
     else st_blocks st / 2 + 1)
  /\ 2 * logical st - 2 < st_blocks st <= 2 * logical st
  /\ stdout (snd (nftw_cb stdout_fails path st FTW_F w))
     = (stdout w
          ++ [(path ++ Str.TAB ++ Manifest.decimal (st_size st) ++ Str.TAB
                 ++ (Manifest.decimal (tv_sec (st_mtim st)) ++ "."
                       ++ Fmt.render_int true 9 (tv_nsec (st_mtim st))
                       ++ "0")
                 ++ Str.TAB
                 ++ Manifest.decimal
                      (if Z.even (st_blocks st) then st_blocks st / 2
                       else st_blocks st / 2 + 1)
                 ++ Str.NL)%string])%list
  /\ Sep.free (Manifest.decimal
                 (if Z.even (st_blocks st) then st_blocks st / 2
                  else st_blocks st / 2 + 1)) = true
  /\ Field.value (Manifest.decimal
                    (if Z.even (st_blocks st) then st_blocks st / 2
                     else st_blocks st / 2 + 1))
     = (if Z.even (st_blocks st) then st_blocks st / 2
        else st_blocks st / 2 + 1).
Proof.
  intros Hb Hok.
  destruct (logical_nonneg_blocks (st_blocks st) Hb) as [E B].
  fold (logical st) in E. unfold Manifest.physical_kb in E, B.
  split; [exact E|]. split; [rewrite E; exact B|].
  rewrite <- E. split; [|split].
  - rewrite nftw_cb_file_ok by assumption. cbn [snd stdout].
    unfold manifest_args. rewrite format_manifest_raw. reflexivity.
  - apply (SepFacts.free_render_int false 0).
  - apply FieldFacts.value_decimal.
Qed.

Lemma physical_size_rounds_up_witness :
  0 <= st_blocks Sample.st_obj
  /\ Sample.never_fails (printf_calls world0) = false
  /\ logical Sample.st_obj = 1025.
Proof.
  assert (H1 : 0 <= st_blocks Sample.st_obj) by (vm_compute; discriminate).
  assert (H2 : Sample.never_fails (printf_calls world0) = false)
    by reflexivity.
  split; [exact H1|]. split; [exact H2|].
  exact (proj1 (physical_size_rounds_up (hdr := Sample.hdr)
                  Sample.never_fails "/manta/acct-1/obj-42" Sample.st_obj
                  world0 H1 H2)).
Defined.

(** The record of a file of 2049 blocks ends in the field 1025, the one of
    a file of 2048 blocks in the field 1024. *)
Example physical_size_sample :
  stdout (snd (nftw_cb (hdr := Sample.hdr) Sample.never_fails "/o"
                 Sample.st_obj (@FTW_F Sample.hdr) world0))
  = ["/o" ++ Str.TAB ++ "1048576" ++ Str.TAB ++ "1700000000.1234567890"
       ++ Str.TAB ++ "1025" ++ Str.NL]
  /\ stdout (snd (nftw_cb (hdr := Sample.hdr) Sample.never_fails "/e"
                    {| st_dev := 1; st_size := 1048576;
                       st_mtim := Sample.mtime; st_blocks := 2048 |}
                    (@FTW_F Sample.hdr) world0))
     = ["/e" ++ Str.TAB ++ "1048576" ++ Str.TAB ++ "1700000000.1234567890"
          ++ Str.TAB ++ "1024" ++ Str.NL].
Proof. split; vm_compute; reflexivity. Qed.

(** ** Clean runs *)

Section CleanRuns.

Context {hdr : ftw_h}.

Variable fs : string -> option fsnode.
Variable stdout_fails : nat -> bool.

Abbreviation visit2 := (nftw_cb stdout_fails).
Abbreviation rec2 :=
  (fun f : string * stat =>
     Fmt.format manifest_fmt (manifest_args (fst f) (snd f))).
Abbreviation ok := (writes_ok stdout_fails).

Lemma clean_tree_Dir descriptors dev level st readable ents :
  clean_tree descriptors dev level (Dir st readable ents)
  = negb (st_dev st =? dev)
    || (readable && (Z.of_nat level <? descriptors)
        && clean_list descriptors dev level ents).
Proof.
  cbn [clean_tree]. do 2 f_equal.
  induction ents as [|[name c] es IH]; [reflexivity|].
  cbn [clean_list]. now rewrite IH.
Qed.

Lemma writes_ok_app from a b :
  ok from (a + b) = ok from a && ok (from + a) b.
Proof. unfold writes_ok. now rewrite seq_app, forallb_app. Qed.

Lemma writes_ok_one from : ok from 1 = negb (stdout_fails from).
Proof. unfold writes_ok. cbn [seq forallb]. apply andb_true_r. Qed.

Lemma world_eta w :
  mkWorld (stdout w ++ []) (printf_calls w + 0) (stderr w) (error w) = w.
Proof. destruct w. cbn. now rewrite app_nil_r, Nat.add_0_r. Qed.

Lemma reported_walk_list descriptors phys mount dev level path es :
  forall w,
    reported w
      (fst (walk_list visit2 descriptors phys mount dev level path es w))
      (snd (walk_list visit2 descriptors phys mount dev level path es w)).
Proof.
  induction es as [|[name c] es IH]; intros w; [apply reported_skip|].
  cbn [walk_list].
  pose proof (reported_walk stdout_fails descriptors phys mount dev c
                (S level) (path ++ "/" ++ name) w) as R.
  cbv zeta in R.
  destruct (walk visit2 descriptors phys mount dev (S level)
              (path ++ "/" ++ name) c w) as [r w1].
  cbn [fst snd] in R. destruct (r =? 0) eqn:E; [|exact R].
  apply Z.eqb_eq in E. subst r. eapply reported_seq; [exact R | apply IH].
Qed.

Lemma stderr_stays w r1 w1 r2 w2 :
  reported w r1 w1 -> reported w1 r2 w2 ->
  stderr w2 = stderr w -> stderr w1 = stderr w.
Proof.
  intros [_ (d1 & E1 & _)] [_ (d2 & E2 & _)] H.
  rewrite E2, E1, <- app_assoc in H.
  rewrite <- (app_nil_r (stderr w)) in H at 2.
  apply app_inv_head, app_eq_nil in H. destruct H as [-> _].
  now rewrite E1, app_nil_r.
Qed.

(** The walk of a clean tree whose records can all be written. *)
Lemma walk_clean descriptors dev n :
  forall level path w,
    clean_tree descriptors dev level n = true ->
    ok (printf_calls w) (List.length (files_of dev path n)) = true ->
    walk visit2 descriptors true true dev level path n w
    = (0, mkWorld (stdout w ++ map rec2 (files_of dev path n))
            (printf_calls w + List.length (files_of dev path n))
            (stderr w) (error w)).
Proof.
  induction n as [st|st readable ents IH|st t IH|st| |st code]
    using fsnode_induction; intros level path w.
  - cbn [walk files_of]. rewrite crosses_eqb.
    destruct (st_dev st =? dev); cbn [negb List.length map].
    + intros _ H. rewrite writes_ok_one in H. apply negb_true_iff in H.
      rewrite nftw_cb_file_ok by assumption. now rewrite Nat.add_1_r.
    + intros _ _. now rewrite world_eta.
  - rewrite walk_Dir, files_of_Dir, clean_tree_Dir, crosses_eqb.
    destruct (st_dev st =? dev); cbn [negb andb orb List.length map];
      [|intros _ _; now rewrite world_eta].
    intros Hc. apply andb_true_iff in Hc. destruct Hc as [Hc Hl].
    apply andb_true_iff in Hc. destruct Hc as [-> Hd]. cbn [negb].
    apply Z.ltb_lt in Hd.
    replace (descriptors <=? Z.of_nat level) with false
      by (symmetry; apply Z.leb_gt; lia).
    rewrite nftw_cb_dir. cbn [Z.eqb].
    revert w Hl. induction IH as [|[name c] es Hn _ IHes]; intros w Hl Hw.
    + cbn [walk_list files_of_list map List.length]. now rewrite world_eta.
    + cbn [walk_list files_of_list clean_list] in *. cbn [snd] in Hn.
      apply andb_true_iff in Hl. destruct Hl as [Hc Hl].
      rewrite length_app, writes_ok_app in Hw.
      apply andb_true_iff in Hw. destruct Hw as [Hw1 Hw2].
      rewrite (Hn (S level) (path ++ "/" ++ name) w Hc Hw1). cbn [Z.eqb].
      match goal with |- context [walk_list _ _ _ _ _ _ _ es ?w1] =>
        rewrite (IHes w1 Hl Hw2) end.
      cbn [stdout printf_calls stderr error].
      now rewrite map_app, length_app, app_assoc, Nat.add_assoc.
  - cbn [walk files_of map List.length]. intros _ _.
    destruct (crosses true dev st); [|rewrite nftw_cb_symlink];
      now rewrite world_eta.
  - cbn [walk files_of map List.length]. intros _ _.
    destruct (crosses true dev st); [|rewrite nftw_cb_symlink];
      now rewrite world_eta.
  - cbn [clean_tree]. discriminate.
  - cbn [walk files_of clean_tree]. rewrite crosses_eqb.
    destruct (st_dev st =? dev); cbn [negb andb orb];
      [|intros _ _; cbn [map List.length]; now rewrite world_eta].
    destruct (code =? FTW_F) eqn:EF; cbn [orb map List.length].
    + apply Z.eqb_eq in EF. subst code.
      intros _ H. rewrite writes_ok_one in H. apply negb_true_iff in H.
      rewrite nftw_cb_file_ok by assumption. now rewrite Nat.add_1_r.
    + intros H _. apply orb_true_iff in H.
      destruct H as [H|H]; apply Z.eqb_eq in H; subst code;
        [rewrite nftw_cb_dir | rewrite nftw_cb_symlink];
        now rewrite world_eta.
Qed.

(** The walk of any other tree returns a non-zero value or reports. *)
Lemma walk_dirty descriptors dev n :
  forall level path w,
    clean_tree descriptors dev level n
    && ok (printf_calls w) (List.length (files_of dev path n)) = false ->
    fst (walk visit2 descriptors true true dev level path n w) <> 0
    \/ stderr (snd (walk visit2 descriptors true true dev level path n w))
       <> stderr w.
Proof.
  induction n as [st|st readable ents IH|st t IH|st| |st code]
    using fsnode_induction; intros level path w.
  - cbn [walk files_of clean_tree]. rewrite crosses_eqb.
    destruct (st_dev st =? dev); cbn [negb andb List.length];
      [|discriminate].
    rewrite writes_ok_one. intros H. apply negb_false_iff in H.
    rewrite nftw_cb_file_fail by assumption. left. discriminate.
  - rewrite walk_Dir, files_of_Dir, clean_tree_Dir, crosses_eqb.
    destruct (st_dev st =? dev); cbn [negb andb orb List.length];
      [|discriminate].
    destruct readable; cbn [negb andb].
    2:{ intros _. rewrite nftw_cb_unreadable. right. cbn [snd stderr].
        apply snoc_neq. }
    destruct (Z.of_nat level <? descriptors) eqn:Ed; cbn [andb].
    2:{ apply Z.ltb_ge in Ed.
        replace (descriptors <=? Z.of_nat level) with true
          by (symmetry; apply Z.leb_le; lia).
        intros _. left. discriminate. }
    apply Z.ltb_lt in Ed.
    replace (descriptors <=? Z.of_nat level) with false
      by (symmetry; apply Z.leb_gt; lia).
    rewrite nftw_cb_dir. cbn [Z.eqb].
    revert w. induction IH as [|[name c] es Hn _ IHes]; intros w.
    + cbn [clean_list files_of_list List.length]. discriminate.
    + cbn [walk_list files_of_list clean_list]. cbn [snd] in Hn.
      rewrite length_app, writes_ok_app. intros H.
      destruct (clean_tree descriptors dev (S level) c
                && ok (printf_calls w)
                     (List.length
                        (files_of dev (path ++ "/" ++ name) c))) eqn:Tc.
      * apply andb_true_iff in Tc. destruct Tc as [Hc Hw].
        rewrite Hc, Hw in H. cbn [andb] in H.
        rewrite (walk_clean descriptors dev c (S level)
                   (path ++ "/" ++ name) w Hc Hw). cbn [Z.eqb].
        match goal with |- context [walk_list _ _ _ _ _ _ _ es ?w1] =>
          specialize (IHes w1) end.
        cbn [printf_calls stderr] in IHes. apply IHes.
        destruct (clean_list descriptors dev level es); [|reflexivity].
        exact H.
      * clear H. specialize (Hn (S level) (path ++ "/" ++ name) w Tc).
        pose proof (reported_walk stdout_fails descriptors true true dev c
                      (S level) (path ++ "/" ++ name) w) as R1.
        cbv zeta in R1.
        destruct (walk visit2 descriptors true true dev (S level)
                    (path ++ "/" ++ name) c w) as [r w1].
        cbn [fst snd] in Hn, R1.
        destruct (r =? 0) eqn:E; [|left; cbn [fst]; now apply Z.eqb_neq].
        apply Z.eqb_eq in E. subst r.
        destruct Hn as [Hn|Hn]; [contradiction|].
        right. intros Hs. apply Hn.
        eapply stderr_stays; [exact R1 | apply reported_walk_list | exact Hs].
  - cbn [clean_tree files_of List.length andb]. discriminate.
  - cbn [clean_tree files_of List.length andb]. discriminate.
  - cbn [walk]. intros _. rewrite nftw_cb_nostat. right. cbn [snd stderr].
    apply snoc_neq.
  - cbn [walk files_of clean_tree]. rewrite crosses_eqb.
    destruct (st_dev st =? dev); cbn [negb andb orb]; [|discriminate].
    destruct (Z.eq_dec code FTW_F) as [->|HF].
    { rewrite Z.eqb_refl. cbn [orb andb List.length].
      rewrite writes_ok_one. intros H. apply negb_false_iff in H.
      rewrite nftw_cb_file_fail by assumption. left. discriminate. }
    replace (code =? FTW_F) with false by (symmetry; now apply Z.eqb_neq).
    cbn [orb List.length]. rewrite andb_true_r. intros H.
    apply orb_false_iff in H. destruct H as [HD HS].
    apply Z.eqb_neq in HD, HS.
    destruct (Z.eq_dec code FTW_DNR) as [->|HR].
    { rewrite nftw_cb_unreadable. right. cbn [snd stderr]. apply snoc_neq. }
    destruct (Z.eq_dec code FTW_NS) as [->|HN].
    { rewrite nftw_cb_nostat. right. cbn [snd stderr]. apply snoc_neq. }
    rewrite nftw_cb_default by assumption. left. discriminate.
Qed.

Lemma length_manifest_of_root root n dev :
  fs root = Some n -> root_dev true n = Some dev ->
  List.length (manifest_of_root fs root)
  = List.length (files_of dev root n).
Proof.
  intros Hn Hd. unfold manifest_of_root. rewrite Hn, Hd. apply length_map.
Qed.

Lemma nftw_clean root w :
  clean_root fs root = true ->
  ok (printf_calls w) (List.length (manifest_of_root fs root)) = true ->
  nftw fs root visit2 MAX_DESCRIPTORS (Z.lor FTW_PHYS FTW_MOUNT) w
  = (0, mkWorld (stdout w ++ manifest_of_root fs root)
          (printf_calls w + List.length (manifest_of_root fs root))
          (stderr w) (error w)).
Proof.
  unfold clean_root, nftw. rewrite flags_phys, flags_mount.
  destruct (fs root) as [n|] eqn:Hn; [|discriminate].
  destruct (root_dev true n) as [dev|] eqn:Hd; [|discriminate].
  rewrite (length_manifest_of_root root n dev Hn Hd).
  intros Hc Hw. rewrite (walk_clean _ _ _ _ _ _ Hc Hw).
  unfold manifest_of_root. now rewrite Hn, Hd.
Qed.

Lemma nftw_dirty root w :
  clean_root fs root
  && ok (printf_calls w) (List.length (manifest_of_root fs root)) = false ->
  fst (nftw fs root visit2 MAX_DESCRIPTORS (Z.lor FTW_PHYS FTW_MOUNT) w) <> 0
  \/ stderr (snd (nftw fs root visit2 MAX_DESCRIPTORS
                    (Z.lor FTW_PHYS FTW_MOUNT) w)) <> stderr w.
Proof.
  unfold clean_root, nftw. rewrite flags_phys, flags_mount.
  destruct (fs root) as [n|] eqn:Hn; [|intros _; left; discriminate].
  destruct (root_dev true n) as [dev|] eqn:Hd;
    [|intros _; left; discriminate].
  rewrite (length_manifest_of_root root n dev Hn Hd).
  apply walk_dirty.
Qed.

(** The program's own account of a clean run against the trees'. *)
Lemma roots_clean_iff roots :
  forall w,
    roots_clean fs stdout_fails (Z.lor FTW_PHYS FTW_MOUNT) roots w
    <-> run_clean fs stdout_fails roots w = true.
Proof.
  unfold run_clean.
  induction roots as [|root rest IH]; intros w.
  - cbn. tauto.
  - cbn [roots_clean forallb flat_map].
    rewrite length_app, writes_ok_app.
    destruct (clean_root fs root
              && ok (printf_calls w)
                   (List.length (manifest_of_root fs root))) eqn:T.
    + apply andb_true_iff in T. destruct T as [Hc Hw].
      rewrite (nftw_clean root w Hc Hw), Hc, Hw. cbn [fst snd andb stderr].
      rewrite IH. cbn [printf_calls]. tauto.
    + split.
      * intros (H0 & Hs & _). destruct (nftw_dirty root w T); contradiction.
      * intros H. exfalso.
        apply andb_true_iff in H. destruct H as [H1 H2].
        apply andb_true_iff in H1, H2.
        destruct H1 as [H1 _], H2 as [H2 _]. rewrite H1, H2 in T.
        discriminate.
Qed.

End CleanRuns.

(** ** The failure flag and the exit status, against the trees *)

(** C7, as stated, fails: a run without root arguments has no per-entry
    error and no abort on any root, the flag is still clear at its end,
    and yet the exit status is 1. *)
Lemma exit_nonzero_without_error :
  run_clean (hdr := Sample.hdr) Sample.fs Sample.never_fails
    (tl ["makofind"]) world0 = true
  /\ error (snd (main (hdr := Sample.hdr) Sample.fs Sample.never_fails
                   ["makofind"] world0)) = 0
  /\ fst (main (hdr := Sample.hdr) Sample.fs Sample.never_fails
            ["makofind"] world0) <> 0.
Proof. vm_compute. repeat split. discriminate. Qed.

(** C7, amended.  The flag is only ever set: [nftw_warn] sets it to 1, and
    the visitor, a walk and [main] leave it as it was or set it to 1.
    Started with the flag clear and at least one root, [main] exits with
    status 0 exactly when the run is clean as read off the trees: every
    root exists, no entry visited is an unreadable directory, a stat
    failure or of an unknown type, no directory lies beyond the descriptor
    bound, and every record can be written. *)
Theorem failure_flag_monotone_and_exit_status {hdr : ftw_h}
  (fs : string -> option fsnode) (stdout_fails : nat -> bool) :
  (forall fmt args w, error (nftw_warn fmt args w) = 1)
  /\ (forall path st objtype w,
        error (snd (nftw_cb stdout_fails path st objtype w)) = error w
        \/ error (snd (nftw_cb stdout_fails path st objtype w)) = 1)
  /\ (forall root descriptors flags w,
        error (snd (nftw fs root (nftw_cb stdout_fails) descriptors flags w))
        = error w
        \/ error (snd (nftw fs root (nftw_cb stdout_fails) descriptors
                         flags w)) = 1)
  /\ (forall argv w,
        error (snd (main fs stdout_fails argv w)) = error w
        \/ error (snd (main fs stdout_fails argv w)) = 1)
  /\ (forall argv w,
        (2 <= List.length argv)%nat -> error w = 0 ->
        (fst (main fs stdout_fails argv w) = 0
         <-> run_clean fs stdout_fails (tl argv) w = true)).
Proof.
  split; [reflexivity|]. split; [|split; [|split]].
  - intros path st objtype w.
    exact (reported_flag _ _ _ (reported_cb stdout_fails path st objtype w)).
  - intros root descriptors flags w.
    exact (reported_flag _ _ _
             (reported_nftw fs stdout_fails root descriptors flags w)).
  - intros argv w. unfold main.
    destruct (Z.of_nat (List.length argv) <? 2); cbn [snd].
    + left. reflexivity.
    + apply main_loop_flag.
  - intros argv w Hlen H0. unfold main.
    replace (Z.of_nat (List.length argv) <? 2) with false
      by (symmetry; apply Z.ltb_ge; lia).
    cbn [fst]. rewrite <- roots_clean_iff. now apply main_loop_clean.
Qed.

Lemma failure_flag_monotone_and_exit_status_witness :
  (2 <= List.length ["makofind"; "/r2"])%nat
  /\ error world0 = 0
  /\ (fst (main (hdr := Sample.hdr) Sample.fs Sample.never_fails
             ["makofind"; "/r2"] world0) = 0
      <-> run_clean (hdr := Sample.hdr) Sample.fs Sample.never_fails
            (tl ["makofind"; "/r2"]) world0 = true).
Proof.
  assert (H1 : (2 <= List.length ["makofind"; "/r2"])%nat) by (cbn; lia).
  assert (H2 : error world0 = 0) by reflexivity.
  split; [exact H1|]. split; [exact H2|].
  exact (proj2 (proj2 (proj2 (proj2
           (failure_flag_monotone_and_exit_status (hdr := Sample.hdr)
              Sample.fs Sample.never_fails))))
           ["makofind"; "/r2"] world0 H1 H2).
Defined.

(** Each kind of trouble alone makes the run unclean and the status 1: an
    unreadable directory and a stat failure in [/a], an object of unknown
    type in [/r1], a missing root [/zz], a record that cannot be written. *)
Example unclean_samples :
  (run_clean (hdr := Sample.hdr) Sample.fs Sample.never_fails ["/a"] world0
   = false
   /\ fst (main (hdr := Sample.hdr) Sample.fs Sample.never_fails
             ["makofind"; "/a"] world0) = 1)
  /\ (run_clean (hdr := Sample.hdr) Sample.fs Sample.never_fails ["/r1"]
        world0 = false
      /\ fst (main (hdr := Sample.hdr) Sample.fs Sample.never_fails
                ["makofind"; "/r1"] world0) = 1)
  /\ (run_clean (hdr := Sample.hdr) Sample.fs Sample.never_fails ["/zz"]
        world0 = false
      /\ fst (main (hdr := Sample.hdr) Sample.fs Sample.never_fails
                ["makofind"; "/zz"] world0) = 1)
  /\ (run_clean (hdr := Sample.hdr) Sample.fs Sample.fails_first ["/r2"]
        world0 = false
      /\ fst (main (hdr := Sample.hdr) Sample.fs Sample.fails_first
                ["makofind"; "/r2"] world0) = 1)
  /\ (run_clean (hdr := Sample.hdr) Sample.fs Sample.never_fails
        ["/r2"; "/two"] world0 = true
      /\ fst (main (hdr := Sample.hdr) Sample.fs Sample.never_fails
                ["makofind"; "/r2"; "/two"] world0) = 0).
Proof. repeat split; vm_compute; reflexivity. Qed.

(** ** Batches of roots *)

Lemma clean_batch_completes {hdr : ftw_h} (fs : string -> option fsnode)
  (stdout_fails : nat -> bool) (roots : list string) :
  forall w,
    run_clean fs stdout_fails roots w = true ->
    visitor_aborts fs stdout_fails (Z.lor FTW_PHYS FTW_MOUNT) roots w = false.
Proof.
  unfold run_clean. induction roots as [|root rest IH]; intros w H;
    [reflexivity|].
  cbn [forallb flat_map] in H. rewrite length_app, writes_ok_app in H.
  apply andb_true_iff in H. destruct H as [H1 H2].
  apply andb_true_iff in H1, H2. destruct H1 as [Hc Hr], H2 as [Hw Hk].
  cbn [visitor_aborts]. rewrite main_loop_cons. cbv zeta.
  rewrite (nftw_clean fs stdout_fails root w Hc Hw).
  cbn [fst snd Z.eqb main_loop]. apply IH. cbn [printf_calls].
  now rewrite Hr, Hk.
Qed.

(** The loop over two batches of roots: when no walk of the first batch
    returns the visitor's abort value, the second batch is processed from
    the state the first one left, also when a walk of the first batch
    failed with -1; when one does, the second batch is not processed at
    all, and the flag is set.  A first batch that is clean as read off the
    trees is never aborted. *)
Theorem root_batches_compose {hdr : ftw_h} (fs : string -> option fsnode)
  (stdout_fails : nat -> bool) (roots1 roots2 : list string) (w : world) :
  main_loop fs stdout_fails (Z.lor FTW_PHYS FTW_MOUNT) (roots1 ++ roots2) w
  = (if visitor_aborts fs stdout_fails (Z.lor FTW_PHYS FTW_MOUNT) roots1 w
     then main_loop fs stdout_fails (Z.lor FTW_PHYS FTW_MOUNT) roots1 w
     else main_loop fs stdout_fails (Z.lor FTW_PHYS FTW_MOUNT) roots2
            (main_loop fs stdout_fails (Z.lor FTW_PHYS FTW_MOUNT) roots1 w))
  /\ (visitor_aborts fs stdout_fails (Z.lor FTW_PHYS FTW_MOUNT) roots1 w
      = true ->
      error (main_loop fs stdout_fails (Z.lor FTW_PHYS FTW_MOUNT) roots1 w)
      = 1)
  /\ (run_clean fs stdout_fails roots1 w = true ->
      visitor_aborts fs stdout_fails (Z.lor FTW_PHYS FTW_MOUNT) roots1 w
      = false).
Proof.
  assert (G : forall w0,
             main_loop fs stdout_fails (Z.lor FTW_PHYS FTW_MOUNT)
               (roots1 ++ roots2) w0
             = (if visitor_aborts fs stdout_fails (Z.lor FTW_PHYS FTW_MOUNT)
                     roots1 w0
                then main_loop fs stdout_fails (Z.lor FTW_PHYS FTW_MOUNT)
                       roots1 w0
                else main_loop fs stdout_fails (Z.lor FTW_PHYS FTW_MOUNT)
                       roots2
                       (main_loop fs stdout_fails (Z.lor FTW_PHYS FTW_MOUNT)
                          roots1 w0))
             /\ (visitor_aborts fs stdout_fails (Z.lor FTW_PHYS FTW_MOUNT)
                   roots1 w0 = true ->
                 error (main_loop fs stdout_fails (Z.lor FTW_PHYS FTW_MOUNT)
                          roots1 w0) = 1)).
  { induction roots1 as [|root rest IH]; intros w0.
    - cbn [app visitor_aborts main_loop].
      split; [reflexivity | discriminate].
    - cbn [app visitor_aborts]. rewrite !main_loop_cons. cbv zeta.
      pose proof (reported_nftw fs stdout_fails root MAX_DESCRIPTORS
                    (Z.lor FTW_PHYS FTW_MOUNT) w0) as R.
      cbv zeta in R. cbn [main_loop].
      destruct (nftw fs root (nftw_cb stdout_fails) MAX_DESCRIPTORS
                  (Z.lor FTW_PHYS FTW_MOUNT) w0) as [ret w1].
      cbn [fst snd] in *.
      destruct (ret =? 1) eqn:E1.
      + apply Z.eqb_eq in E1. subst ret. split; [reflexivity|].
        intros _. now apply reported_abort in R.
      + destruct (ret =? -1); apply IH. }
  destruct (G w) as [G1 G2].
  split; [exact G1|]. split; [exact G2|].
  apply clean_batch_completes.
Qed.

(** The missing root [/zz] does not abort its batch: [/r2] is walked
    after it.  The unknown type in [/r1] does: [/r2] is not walked. *)
Example root_batches_sample :
  (visitor_aborts (hdr := Sample.hdr) Sample.fs Sample.never_fails
     (Z.lor (@FTW_PHYS Sample.hdr) (@FTW_MOUNT Sample.hdr)) ["/zz"] world0
   = false
   /\ stdout (main_loop (hdr := Sample.hdr) Sample.fs Sample.never_fails
                (Z.lor (@FTW_PHYS Sample.hdr) (@FTW_MOUNT Sample.hdr))
                (["/zz"] ++ ["/r2"]) world0)
      = [Manifest.record_of "/r2/f" Sample.st_obj])
  /\ (visitor_aborts (hdr := Sample.hdr) Sample.fs Sample.never_fails
        (Z.lor (@FTW_PHYS Sample.hdr) (@FTW_MOUNT Sample.hdr)) ["/r1"] world0
      = true
      /\ stdout (main_loop (hdr := Sample.hdr) Sample.fs Sample.never_fails
                   (Z.lor (@FTW_PHYS Sample.hdr) (@FTW_MOUNT Sample.hdr))
                   (["/r1"] ++ ["/r2"]) world0)
         = []).
Proof. repeat split; vm_compute; reflexivity. Qed.

Lemma root_batches_compose_witness :
  visitor_aborts (hdr := Sample.hdr) Sample.fs Sample.never_fails
    (Z.lor (@FTW_PHYS Sample.hdr) (@FTW_MOUNT Sample.hdr)) ["/r1"] world0
  = true
  /\ error (main_loop (hdr := Sample.hdr) Sample.fs Sample.never_fails
              (Z.lor (@FTW_PHYS Sample.hdr) (@FTW_MOUNT Sample.hdr))
              ["/r1"] world0) = 1.
Proof.
  assert (H : visitor_aborts (hdr := Sample.hdr) Sample.fs
                Sample.never_fails
                (Z.lor (@FTW_PHYS Sample.hdr) (@FTW_MOUNT Sample.hdr))
                ["/r1"] world0 = true)
    by (vm_compute; reflexivity).
  split; [exact H|].
  exact (proj1 (proj2 (root_batches_compose (hdr := Sample.hdr) Sample.fs
                         Sample.never_fails ["/r1"] ["/r2"] world0)) H).
Defined.
